(** * moobot: command routing, reaction registry, listing matching and the
      plugin-path migration

    A shallow embedding of
      - [src/migrations/04_switch_to_plugins.py] (module [Migration]),
      - [src/moobot/discord/discord_bot.py]      (modules [Re] and [Bot]),
    together with the matching engine, which the repository's
    specification describes (module [Matching]), and the callbacks [start]
    hands to the client (module [Startup]).

    Conventions.
      - Python [str] values are [string]s; a character is a code point
        below 256.
      - A Python [dict] with string keys whose order is never observed is a
        [gmap string _]; the command table, whose iteration order is
        observed, is an association list ([Bot.Table]).
      - A Python function that can raise returns a [result]; a coroutine of
        the bot returns the trace of the calls it made to its collaborators
        and how it completed. *)

From Stdlib Require Import ZArith Ascii String DecimalString.
From stdpp Require Import gmap strings list fin_maps.

#[local] Set Warnings "-register-all".
#[local] Open Scope Z_scope.

(* ===================================================================== *)
(** * Python values and exceptions used by the sources                    *)
(* ===================================================================== *)

Module Py.

(** The exceptions the modelled statements can raise by themselves. *)
Inductive error :=
  | KeyError (key : string)
  | TypeError
  | JSONDecodeError
  | ReError.

Inductive result (A : Type) :=
  | Ok (a : A)
  | Raise (e : error).
Arguments Ok {A} a.
Arguments Raise {A} e.

Definition bind {A B} (r : result A) (k : A -> result B) : result B :=
  match r with
  | Ok a => k a
  | Raise e => Raise e
  end.

Definition is_ok {A} (r : result A) : bool :=
  match r with Ok _ => true | Raise _ => false end.

(** JSON documents as [json.loads] builds them: [None], [bool], [int],
    [float] (kept as its [repr]), [str], [list], [dict]. *)
Inductive json :=
  | JNull
  | JBool (b : bool)
  | JInt (n : Z)
  | JFloat (repr : string)
  | JStr (s : string)
  | JArr (items : list json)
  | JObj (fields : gmap string json).

(** [needle in haystack] on two [str]s. *)
Fixpoint str_contains (needle haystack : string) : bool :=
  String.prefix needle haystack ||
  match haystack with
  | EmptyString => false
  | String _ rest => str_contains needle rest
  end.

(** [x == "..."] for a JSON value [x] and a [str]. *)
Definition eq_str (x : json) (s : string) : bool :=
  match x with
  | JStr t => String.eqb t s
  | _ => false
  end.

(** [key in obj]: key membership on a dict, element membership on a list,
    substring test on a str; the other values are not containers. *)
Definition contains (key : string) (obj : json) : result bool :=
  match obj with
  | JObj fields => Ok (bool_decide (is_Some (fields !! key)))
  | JArr items => Ok (existsb (fun x => eq_str x key) items)
  | JStr s => Ok (str_contains key s)
  | _ => Raise TypeError
  end.

(** [obj[key]] with a [str] key: only a dict accepts it. *)
Definition getitem (obj : json) (key : string) : result json :=
  match obj with
  | JObj fields =>
      match fields !! key with
      | Some v => Ok v
      | None => Raise (KeyError key)
      end
  | _ => Raise TypeError
  end.

(** [del obj[key]] with a [str] key. *)
Definition delitem (obj : json) (key : string) : result json :=
  match obj with
  | JObj fields =>
      match fields !! key with
      | Some _ => Ok (JObj (delete key fields))
      | None => Raise (KeyError key)
      end
  | _ => Raise TypeError
  end.

(** [obj[key] = v] with a [str] key. *)
Definition setitem (obj : json) (key : string) (v : json) : result json :=
  match obj with
  | JObj fields => Ok (JObj (<[key := v]> fields))
  | _ => Raise TypeError
  end.

(** The one-character strings of a [str], as iterating it yields them. *)
Fixpoint chars (s : string) : list json :=
  match s with
  | EmptyString => []
  | String c rest => JStr (String c EmptyString) :: chars rest
  end.

(** [for x in obj]: the elements of a list, the keys of a dict, the
    characters of a str. *)
Definition iter (obj : json) : result (list json) :=
  match obj with
  | JArr items => Ok items
  | JObj fields => Ok (JStr <$> (map_to_list fields).*1)
  | JStr s => Ok (chars s)
  | _ => Raise TypeError
  end.

End Py.

#[global] Instance result_bind : MBind Py.result := fun _ _ k r => Py.bind r k.
#[global] Instance result_ret : MRet Py.result := fun _ a => Py.Ok a.

(* ===================================================================== *)
(** * migrations/04_switch_to_plugins.py                                  *)
(* ===================================================================== *)

Module Migration.
Import Py.

(** The literal written into every converted spec (lines 26 and 48). *)
Definition PLUGIN_PATH : string := "plugins.craigslist.plugin:CraigslistPlugin".

(** What a text column that is meant to hold JSON can hold: NULL, a text
    that is not JSON, or the text of a document. The text of a document is
    modelled by the document: [json.dumps] gives it, [json.loads] gives the
    document back. [json.loads(None)] raises [TypeError], and a text that
    is not JSON raises [JSONDecodeError]. *)
Inductive column :=
  | Null
  | Malformed
  | Json (doc : json).

Definition loads (c : column) : result json :=
  match c with
  | Json doc => Ok doc
  | Null => Raise TypeError
  | Malformed => Raise JSONDecodeError
  end.

Definition dumps (doc : json) : column := Json doc.

Record DbDiscordNotifier := { config_json : column }.
Record DbListing := { search_spec_json : column }.

Record Database := {
  notifiers : list DbDiscordNotifier;
  listings : list DbListing
}.

(** Lines 22-26 and 44-48: the statements both loops run on one spec.
    [Ok None] is the [continue]; [Ok (Some spec')] is the spec after the
    [del] and the assignment. *)
Definition switch_spec (spec : json) : result (option json) :=
  has_source ← contains "source" spec;
  if negb has_source then Ok None
  else
    spec1 ← delitem spec "source";
    spec2 ← setitem spec1 "plugin_path" (JStr PLUGIN_PATH);
    Ok (Some spec2).

(** The mutation of [search["spec"]] seen through [search]. *)
Definition store (obj : json) (key : string) (v : json) : json :=
  match obj with
  | JObj fields => JObj (<[key := v]> fields)
  | _ => obj
  end.

(** Lines 21-28: the inner loop, returning the searches after it and the
    number of searches it updated. *)
Fixpoint update_searches (searches : list json) : result (list json * nat) :=
  match searches with
  | [] => Ok ([], 0%nat)
  | search :: rest =>
      spec ← getitem search "spec";
      changed ← switch_spec spec;
      '(rest', n) ← update_searches rest;
      match changed with
      | None => Ok (search :: rest', n)
      | Some spec' => Ok (store search "spec" spec' :: rest', S n)
      end
  end.

(** Lines 19-31: one notifier. *)
Definition update_notifier (row : DbDiscordNotifier)
  : result (DbDiscordNotifier * nat) :=
  notifier_json ← loads (config_json row);
  active ← getitem notifier_json "active_searches";
  searches ← iter active;
  '(searches', n) ← update_searches searches;
  let notifier_json' :=
    match active with
    | JArr _ => store notifier_json "active_searches" (JArr searches')
    | _ => notifier_json
    end in
  let updated := negb (Nat.eqb n 0) in
  if updated
  then Ok ({| config_json := dumps notifier_json' |}, n)
  else Ok (row, n).

Fixpoint update_notifier_rows (rows : list DbDiscordNotifier)
  : result (list DbDiscordNotifier * nat) :=
  match rows with
  | [] => Ok ([], 0%nat)
  | row :: rest =>
      '(row', n) ← update_notifier row;
      '(rest', m) ← update_notifier_rows rest;
      Ok (row' :: rest', (n + m)%nat)
  end.

(** Lines 43-50: one listing. *)
Definition update_listing (row : DbListing) : result (DbListing * nat) :=
  search_spec_json ← loads (search_spec_json row);
  changed ← switch_spec search_spec_json;
  match changed with
  | None => Ok (row, 0%nat)
  | Some spec' => Ok ({| search_spec_json := dumps spec' |}, 1%nat)
  end.

Fixpoint update_listing_rows (rows : list DbListing)
  : result (list DbListing * nat) :=
  match rows with
  | [] => Ok ([], 0%nat)
  | row :: rest =>
      '(row', n) ← update_listing row;
      '(rest', m) ← update_listing_rows rest;
      Ok (row' :: rest', (n + m)%nat)
  end.

(** What a run leaves behind: the database (an exception inside the
    [with Session()] block skips [session.commit()], so the database is
    the one before the call) and either the exception or the count that
    is printed. *)
Definition outcome := (Database * result nat)%type.

Definition update_notifiers (db : Database) : outcome :=
  match update_notifier_rows (notifiers db) with
  | Ok (rows, updated_count) =>
      ({| notifiers := rows; listings := listings db |}, Ok updated_count)
  | Raise e => (db, Raise e)
  end.

Definition update_listings (db : Database) : outcome :=
  match update_listing_rows (listings db) with
  | Ok (rows, updated_listing_count) =>
      ({| notifiers := notifiers db; listings := rows |},
       Ok updated_listing_count)
  | Raise e => (db, Raise e)
  end.

(** [main]: the two passes in order; the result carries both counts. *)
Definition main (db : Database) : Database * result (nat * nat) :=
  match update_notifiers db with
  | (db1, Ok updated_count) =>
      match update_listings db1 with
      | (db2, Ok updated_listing_count) =>
          (db2, Ok (updated_count, updated_listing_count))
      | (db2, Raise e) => (db2, Raise e)
      end
  | (db1, Raise e) => (db1, Raise e)
  end.

End Migration.

(* ===================================================================== *)
(** * The part of Python's [re] the command patterns are modelled with    *)
(* ===================================================================== *)

(** The bot compiles every command pattern with [re.IGNORECASE] and asks
    only [pattern.match(command)]: is there a match starting at offset 0.
    [Re] implements that question for the pattern syntax made of literal
    characters, [.], [^], [$], [|], groups [( )], the greedy quantifiers
    [*], [+], [?] and backslash-escaped punctuation (which covers the
    source's [DEBUG_COMMAND_PREFIX]). [compile] answers [None] on a pattern
    that Python rejects and on one that uses syntax outside this fragment. *)
Module Re.

Inductive regex :=
  | Empty
  | Bol                      (* ^ *)
  | Eol                      (* $ *)
  | Dot                      (* . *)
  | Lit (c : ascii)
  | Cat (r1 r2 : regex)
  | Alt (r1 r2 : regex)
  | Star (r : regex).

Definition code_in (lo hi : nat) (c : ascii) : bool :=
  (lo <=? nat_of_ascii c)%nat && (nat_of_ascii c <=? hi)%nat.

(** Lower-casing of a code point below 256 (A-Z, and the Latin-1 capitals
    except the multiplication sign). *)
Definition lower (c : ascii) : ascii :=
  if code_in 65 90 c || (code_in 192 222 c && negb (nat_of_ascii c =? 215)%nat)
  then ascii_of_nat (nat_of_ascii c + 32)
  else c.

Definition same_char_ignorecase (a b : ascii) : bool :=
  Ascii.eqb (lower a) (lower b).

Definition is_alnum (c : ascii) : bool :=
  code_in 48 57 c || code_in 65 90 c || code_in 97 122 c.

Definition is_quantifier (c : ascii) : bool :=
  Ascii.eqb c "*" || Ascii.eqb c "+" || Ascii.eqb c "?".

Definition newline : ascii := ascii_of_nat 10.

(** Applying a quantifier; an anchor cannot be repeated. *)
Definition quantify (q : ascii) (a : regex) : option regex :=
  match a with
  | Bol | Eol => None
  | _ =>
      if Ascii.eqb q "*" then Some (Star a)
      else if Ascii.eqb q "+" then Some (Cat a (Star a))
      else Some (Alt a Empty)
  end.

(** After an atom: an optional single quantifier. A second quantifier or
    an opening brace behind it is outside the fragment. *)
Definition parse_quantifier (a : regex) (s : list ascii)
  : option (regex * list ascii) :=
  match s with
  | q :: rest =>
      if is_quantifier q then
        match rest with
        | q2 :: _ =>
            if is_quantifier q2 || Ascii.eqb q2 "{" then None
            else r ← quantify q a; Some (r, rest)
        | [] => r ← quantify q a; Some (r, rest)
        end
      else Some (a, s)
  | [] => Some (a, s)
  end.

(** Recursive descent: alternation, sequence, atom. *)
Fixpoint parse_alt (fuel : nat) (s : list ascii) : option (regex * list ascii) :=
  match fuel with
  | O => None
  | S fuel' =>
      match parse_seq fuel' s with
      | Some (r1, c :: rest) =>
          if Ascii.eqb c "|" then
            '(r2, rest') ← parse_alt fuel' rest; Some (Alt r1 r2, rest')
          else Some (r1, c :: rest)
      | other => other
      end
  end
with parse_seq (fuel : nat) (s : list ascii) : option (regex * list ascii) :=
  match fuel with
  | O => None
  | S fuel' =>
      match s with
      | [] => Some (Empty, [])
      | c :: _ =>
          if Ascii.eqb c "|" || Ascii.eqb c ")" then Some (Empty, s)
          else
            '(a, s1) ← parse_atom fuel' s;
            '(q, s2) ← parse_quantifier a s1;
            '(r, s3) ← parse_seq fuel' s2;
            Some (Cat q r, s3)
      end
  end
with parse_atom (fuel : nat) (s : list ascii) : option (regex * list ascii) :=
  match fuel with
  | O => None
  | S fuel' =>
      match s with
      | [] => None
      | c :: rest =>
          if Ascii.eqb c "(" then
            match rest with
            | c2 :: _ =>
                if Ascii.eqb c2 "?" then None
                else
                  match parse_alt fuel' rest with
                  | Some (r, c3 :: rest') =>
                      if Ascii.eqb c3 ")" then Some (r, rest') else None
                  | _ => None
                  end
            | [] => None
            end
          else if Ascii.eqb c "\" then
            match rest with
            | c2 :: rest' => if is_alnum c2 then None else Some (Lit c2, rest')
            | [] => None
            end
          else if Ascii.eqb c "." then Some (Dot, rest)
          else if Ascii.eqb c "^" then Some (Bol, rest)
          else if Ascii.eqb c "$" then Some (Eol, rest)
          else if is_quantifier c || Ascii.eqb c "[" || Ascii.eqb c "{" then None
          else Some (Lit c, rest)
      end
  end.

Definition compile (pattern : string) : option regex :=
  let s := list_ascii_of_string pattern in
  match parse_alt (4 * length s + 4) s with
  | Some (r, []) => Some r
  | _ => None
  end.

(** Backtracking in the order of [re]: the left alternative first, one
    more iteration of a star first. [pos] is the offset reached, [s] the
    text from there, [k] what has to match behind. The result is the
    offset at which the match ends. After an iteration of a star that
    consumed nothing, [re] starts no further iteration and goes on with
    what is behind the star; so the length of [s] bounds the iterations. *)
Fixpoint run (r : regex) (pos : nat) (s : list ascii)
    (k : nat -> list ascii -> option nat) : option nat :=
  match r with
  | Empty => k pos s
  | Bol => if (pos =? 0)%nat then k pos s else None
  | Eol =>
      match s with
      | [] => k pos s
      | [c] => if Ascii.eqb c newline then k pos s else None
      | _ => None
      end
  | Dot =>
      match s with
      | c :: rest => if Ascii.eqb c newline then None else k (S pos) rest
      | [] => None
      end
  | Lit a =>
      match s with
      | c :: rest => if same_char_ignorecase a c then k (S pos) rest else None
      | [] => None
      end
  | Cat r1 r2 => run r1 pos s (fun pos' s' => run r2 pos' s' k)
  | Alt r1 r2 =>
      match run r1 pos s k with
      | Some e => Some e
      | None => run r2 pos s k
      end
  | Star r1 =>
      (fix iterate (n : nat) (pos : nat) (s : list ascii) : option nat :=
         match n with
         | O => k pos s
         | S n' =>
             match run r1 pos s
                     (fun pos' s' =>
                        if (pos <? pos')%nat then iterate n' pos' s'
                        else k pos' s')
             with
             | Some e => Some e
             | None => k pos s
             end
         end) (length s) pos s
  end.

(** [pattern.match(text)]: the end of the match found at offset 0. *)
Definition match_ (r : regex) (text : string) : option nat :=
  run r 0 (list_ascii_of_string text) (fun pos _ => Some pos).

End Re.

(* ===================================================================== *)
(** * moobot/discord/discord_bot.py                                       *)
(* ===================================================================== *)

Module Bot.

(** ** Text helpers: the [str] methods the bot uses *)

Fixpoint str_drop (n : nat) (s : string) : string :=
  match n, s with
  | O, _ => s
  | S n', String _ rest => str_drop n' rest
  | S _, EmptyString => EmptyString
  end.

(** [s[-n:]] for a positive [n]. *)
Definition last_chars (n : nat) (s : string) : string :=
  str_drop (String.length s - n) s.

(** The characters [str.strip()] removes, among the code points below 256. *)
Definition is_space (c : ascii) : bool :=
  let n := nat_of_ascii c in
  ((9 <=? n) && (n <=? 13) || (28 <=? n) && (n <=? 32)
   || (n =? 133) || (n =? 160))%nat.

Fixpoint lstrip (s : string) : string :=
  match s with
  | String c rest => if is_space c then lstrip rest else s
  | EmptyString => EmptyString
  end.

Fixpoint rstrip (s : string) : string :=
  match s with
  | String c rest =>
      match rstrip rest with
      | EmptyString => if is_space c then EmptyString else String c EmptyString
      | rest' => String c rest'
      end
  | EmptyString => EmptyString
  end.

Definition strip (s : string) : string := rstrip (lstrip s).

(** [s[0]] and [s[-1]]; [None] on the empty [str]. *)
Definition first_char (s : string) : option ascii :=
  match s with
  | String c _ => Some c
  | EmptyString => None
  end.

Fixpoint last_char (s : string) : option ascii :=
  match s with
  | String c EmptyString => Some c
  | String _ rest => last_char rest
  | EmptyString => None
  end.

(** [str(n)] for an [int]. *)
Definition str_of_int (n : Z) : string := NilZero.string_of_int (Z.to_int n).

(** [re.sub(rf"<@!?{id}>", "", s, 1)]: the leftmost occurrence of
    [<@id>] or [<@!id>] is removed. *)
Fixpoint remove_first_mention (id : Z) (s : string) : string :=
  let plain := "<@" +:+ str_of_int id +:+ ">" in
  let nick := "<@!" +:+ str_of_int id +:+ ">" in
  if String.prefix nick s then str_drop (String.length nick) s
  else if String.prefix plain s then str_drop (String.length plain) s
  else
    match s with
    | String c rest => String c (remove_first_mention id rest)
    | EmptyString => EmptyString
    end.

(** Line 25. *)
Definition DEBUG_COMMAND_PREFIX : string := "(d|debug) ".

(** ** What the chat platform hands to the bot *)

Record User := {
  user_id : Z;
  user_mention : string      (* [user.mention] *)
}.

Record Message := {
  message_id : Z;
  author : User;
  content : string;
  channel : Z;
  mention_everyone : bool;
  mentions : list User
}.

Record Reaction := {
  reaction_message : Message;
  emoji : string
}.

Inductive ReactionAction := ADDED | REMOVED.

(** [a == b] on users compares their ids. *)
Definition user_eqb (a b : User) : bool := (user_id a =? user_id b).

(** [message.author == self.client.user], where [client.user] is [None]
    until the client has logged in. *)
Definition is_client_user (client_user : option User) (a : User) : bool :=
  match client_user with
  | Some u => user_eqb a u
  | None => false
  end.

(** [user.mentioned_in(message)]. *)
Definition mentioned_in (u : User) (message : Message) : bool :=
  mention_everyone message || existsb (fun m => user_eqb m u) (mentions message).

(** ** Exceptions a handler can raise, as the [try] statement sorts them *)

Inductive exception_class :=
  | CancelledError           (* asyncio.CancelledError *)
  | ExceptionSubclass        (* an instance of Exception *)
  | OtherBaseException.      (* KeyboardInterrupt, SystemExit, GeneratorExit *)

Record exception := {
  exc_class : exception_class;
  format_exc : string        (* what traceback.format_exc() returns for it *)
}.

Inductive completion :=
  | Returned
  | Raised (e : exception).

(** ** The [re] library and the handlers, as the bot sees them *)

Class ReLibrary := {
  Code : Type;
  Match : Type;
  compile_code : string -> option Code;     (* None: re.error *)
  match_code : Code -> string -> option Match
}.

(** A compiled pattern. Two patterns are equal, and hash alike, when their
    pattern strings and flags agree; the flags are always [re.IGNORECASE]. *)
Record Pattern `{ReLibrary} := {
  pattern : string;
  code : Code
}.

Definition pattern_eqb `{ReLibrary} (p q : Pattern) : bool :=
  String.eqb (pattern p) (pattern q).

(** [re.compile(r, re.IGNORECASE)]. *)
Definition re_compile `{ReLibrary} (r : string) : Py.result Pattern :=
  match compile_code r with
  | Some c => Py.Ok {| pattern := r; code := c |}
  | None => Py.Raise Py.ReError
  end.

Record DiscordBot {ReactionHandler : Type} := {
  client_user : option User;
  command_prefix : option string;
  reaction_handlers : gmap Z ReactionHandler  (* message ID -> reaction handler *)
}.
Arguments DiscordBot : clear implicits.

(** The handlers are function objects: [CommandHandler] and
    [ReactionHandler] name them, [call_command] and [call_reaction] say how
    a call to one completes. *)
Class Handlers `{ReLibrary} := {
  CommandHandler : Type;
  ReactionHandler : Type;
  call_command :
    CommandHandler -> DiscordBot ReactionHandler -> Message -> Match -> completion;
  call_reaction :
    ReactionHandler -> ReactionAction -> Reaction -> User -> completion
}.

(** The chat platform: how [await message.channel.send(text)] completes,
    by returning or by raising (discord.py raises [Forbidden] or
    [HTTPException] when it cannot deliver the message). *)
Class Transport := {
  channel_send : Z -> string -> completion
}.

Section Bot.
Context {lib : ReLibrary} {hs : Handlers} {tr : Transport}.

#[local] Abbreviation bot := (DiscordBot ReactionHandler).

(** What a coroutine of the bot did, in order. *)
Inductive event :=
  | LogInfo (text : string)
  | CallCommand (f : CommandHandler) (message : Message) (m : Match)
  | ChannelSend (channel : Z) (text : string)
  | CallReaction (f : ReactionHandler) (action : ReactionAction)
      (reaction : Reaction) (user : User).

(** [_discord_bot_commands]: a dict, so one entry per pattern, iterated
    in the order in which the patterns were first inserted. *)
Definition Table := list (Pattern * CommandHandler).

(** [d[p] = f] on that dict. *)
Fixpoint dict_set (d : Table) (p : Pattern) (f : CommandHandler) : Table :=
  match d with
  | [] => [(p, f)]
  | (q, g) :: rest =>
      if pattern_eqb q p then (q, f) :: rest
      else (q, g) :: dict_set rest p f
  end.

(** [d[p]] on that dict; [None] stands for the [KeyError]. *)
Fixpoint dict_get (d : Table) (p : Pattern) : option CommandHandler :=
  match d with
  | [] => None
  | (q, g) :: rest => if pattern_eqb q p then Some g else dict_get rest p
  end.

(** [@DiscordBot.command(r)] applied to [f]. *)
Definition command (r : string) (f : CommandHandler) (d : Table)
  : Py.result Table :=
  p ← re_compile r; Py.Ok (dict_set d p f).

(** A module's decorators, applied in order to the table: each entry is a
    pattern text and the function it decorates. *)
Fixpoint register_all (rs : list (string * CommandHandler)) (d : Table)
  : Py.result Table :=
  match rs with
  | [] => Py.Ok d
  | (r, f) :: rest => d' ← command r f d; register_all rest d'
  end.

(** An entry of the table is the registration [(r, f)]. *)
Definition registered (rf : string * CommandHandler)
    (entry : Pattern * CommandHandler) : Prop :=
  pattern entry.1 = rf.1
  /\ compile_code rf.1 = Some (code entry.1)
  /\ entry.2 = rf.2.

(** The pattern strings of the table, in iteration order. *)
Definition keys (d : Table) : list string :=
  (fun entry => pattern entry.1) <$> d.

(** No pattern of [d] matches [command]. *)
Definition none_matches (d : Table) (command : string) : Prop :=
  Forall (fun entry => match_code (code entry.1) command = None) d.

(** The two ways a message is a command: it mentions the bot, or it
    starts with the command prefix. *)
Definition command_by_mention (self : bot) (message : Message)
  : option string :=
  match client_user self with
  | Some u =>
      if mentioned_in u message
      then Some (strip (remove_first_mention (user_id u) (content message)))
      else None
  | None => None
  end.

Definition command_by_prefix (self : bot) (message : Message)
  : option string :=
  match command_prefix self with
  | Some prefix =>
      if String.prefix prefix (content message)
      then Some (strip (str_drop (String.length prefix) (content message)))
      else None
  | None => None
  end.

Definition get_command_from_message (self : bot) (message : Message)
  : option string :=
  match command_by_mention self message with
  | Some command => Some command
  | None => command_by_prefix self message
  end.

Definition error_text (message : Message) (e : exception) : string :=
  "Sorry " +:+ user_mention (author message)
  +:+ "! Something went wrong while running your command.```"
  +:+ last_chars 1900 (format_exc e) +:+ "```".

(** Lines 86-90: the [except Exception] block. The message is handed to
    the channel; when the send returns, the bare [raise] raises the
    handler's exception again; when the send raises, its exception leaves
    the block and the [raise] is not reached. *)
Definition report_and_raise (message : Message) (e : exception) : completion :=
  match channel_send (channel message) (error_text message e) with
  | Returned => Raised e
  | Raised send_error => Raised send_error
  end.

(** Lines 81-90: the call of the matched handler under the [try]. *)
Definition run_handler (self : bot) (message : Message)
    (f : CommandHandler) (m : Match) : list event * completion :=
  match call_command f self message m with
  | Returned => ([CallCommand f message m], Returned)
  | Raised e =>
      match exc_class e with
      | CancelledError => ([CallCommand f message m], Raised e)
      | ExceptionSubclass =>
          ([CallCommand f message m;
            ChannelSend (channel message) (error_text message e)],
           report_and_raise message e)
      | OtherBaseException => ([CallCommand f message m], Raised e)
      end
  end.

(** Lines 78-91: the loop over the table. The value [d[pattern]] is the
    handler stored with [pattern]. *)
Fixpoint dispatch (self : bot) (d : Table) (message : Message)
    (command : string) : list event * completion :=
  match d with
  | [] => ([], Returned)
  | (p, f) :: rest =>
      match match_code (code p) command with
      | Some m => run_handler self message f m
      | None => dispatch self rest message command
      end
  end.

Definition on_message (self : bot) (d : Table) (message : Message)
  : list event * completion :=
  if is_client_user (client_user self) (author message) then ([], Returned)
  else
    match get_command_from_message self message with
    | None => ([], Returned)
    | Some command =>
        let '(trace, c) := dispatch self d message command in
        (LogInfo ("Received command: " +:+ command) :: trace, c)
    end.

Definition on_reaction_change (self : bot) (action : ReactionAction)
    (reaction : Reaction) (user : User) : list event * completion :=
  let message := reaction_message reaction in
  match reaction_handlers self !! message_id message with
  | Some f =>
      ([CallReaction f action reaction user],
       call_reaction f action reaction user)
  | None => ([], Returned)
  end.

End Bot.

End Bot.

(* ===================================================================== *)
(** * The persisted SearchSpec schema, as the migration claims read it    *)
(* ===================================================================== *)

Module Schema.
Import Py Migration.

(** [obj.get(key)] on a document; [None] when [obj] is not a dict. *)
Definition field (obj : json) (key : string) : option json :=
  match obj with
  | JObj fields => fields !! key
  | _ => None
  end.

Definition column_field (c : column) (key : string) : option json :=
  match c with
  | Json doc => field doc key
  | _ => None
  end.

(** The entries of a notifier config's active-search list. *)
Definition active_searches (c : column) : list json :=
  match column_field c "active_searches" with
  | Some (JArr searches) => searches
  | _ => []
  end.

(** A spec of the prior schema carries a [source] key. *)
Definition has_source (spec : json) : bool :=
  bool_decide (is_Some (field spec "source")).

(** The shape [<namespace>:<symbol>]: one colon, at neither end. *)
Fixpoint colon_free (s : string) : bool :=
  match s with
  | EmptyString => true
  | String c rest => negb (Ascii.eqb c ":") && colon_free rest
  end.

Fixpoint symbol_after_colon (s : string) : option string :=
  match s with
  | EmptyString => None
  | String c rest => if Ascii.eqb c ":" then Some rest else symbol_after_colon rest
  end.

Definition has_plugin_path_shape (s : string) : bool :=
  match s, symbol_after_colon s with
  | String c _, Some (String d symbol) =>
      negb (Ascii.eqb c ":") && colon_free (String d symbol)
  | _, _ => false
  end.

(** What the claims ask of one spec: a prior-schema spec loses [source],
    gains the plugin path and keeps its other keys; any other spec stays
    as it is. *)
Definition spec_converted (spec spec' : json) : Prop :=
  if has_source spec then
    field spec' "source" = None
    /\ field spec' "plugin_path" = Some (JStr PLUGIN_PATH)
    /\ (forall key, key <> "source" -> key <> "plugin_path" ->
          field spec' key = field spec key)
  else spec' = spec.

Definition search_converted (search search' : json) : Prop :=
  exists spec spec',
    field search "spec" = Some spec
    /\ field search' "spec" = Some spec'
    /\ spec_converted spec spec'
    /\ (forall key, key <> "spec" -> field search' key = field search key).

Definition notifier_converted (row row' : DbDiscordNotifier) : Prop :=
  Forall2 search_converted
    (active_searches (config_json row)) (active_searches (config_json row'))
  /\ (forall key, key <> "active_searches" ->
        column_field (config_json row') key = column_field (config_json row) key).

Definition listing_converted (row row' : DbListing) : Prop :=
  exists spec spec',
    search_spec_json row = Json spec
    /\ search_spec_json row' = Json spec'
    /\ spec_converted spec spec'.

(** Rows as the application writes them: a notifier config is an object
    whose [active_searches] is a list of objects with an object under
    [spec]; a listing's spec is an object. *)
Definition is_object (doc : json) : bool :=
  match doc with JObj _ => true | _ => false end.

Definition search_ok (search : json) : bool :=
  match field search "spec" with
  | Some spec => is_object spec
  | None => false
  end.

Definition notifier_ok (row : DbDiscordNotifier) : bool :=
  match column_field (config_json row) "active_searches" with
  | Some (JArr searches) => forallb search_ok searches
  | _ => false
  end.

Definition listing_ok (row : DbListing) : bool :=
  match search_spec_json row with
  | Json spec => is_object spec
  | _ => false
  end.

Definition database_ok (db : Database) : bool :=
  forallb notifier_ok (notifiers db) && forallb listing_ok (listings db).

End Schema.

(* ===================================================================== *)
(** * The matching engine                                                 *)
(* ===================================================================== *)

Module Matching.

(** Modelled from the spec: the SearchSpec value of section 3, filter
    criteria plus the plugin identifier; no source file declares it. *)
Record SearchSpec := {
  criteria : gmap string Py.json;
  plugin_path : string
}.

(** Modelled from the spec: a raw listing of the scraper contract of
    section 6; [sourceId] is [None] on a malformed item that carries no
    identifier. No source file declares it. *)
Record RawListing := {
  sourceId : option string;
  title : string;
  price : string;
  url : string;
  location : string
}.

(** Modelled from the spec: the Listing of section 3, a source-native
    identifier, the attributes, and the spec it was matched under. *)
Record Listing := {
  listing_id : string;
  attributes : RawListing;
  matched_under : SearchSpec
}.

(** Modelled from the spec: what a run of the engine hands back, the novel
    listings in order, the seen-set after the run and the number of
    malformed items it skipped. *)
Record MatchResult := {
  novel : list Listing;
  seen_after : gset string;
  skipped_malformed : nat
}.

(** Modelled from the spec: the Matching Engine's [match] of section 4.2,
    which is not part of the sources. It walks the raw listings in order;
    an item without identifier is dropped and counted; an item whose
    identifier is in [seenIds] is skipped; any other becomes a Listing
    bound to [spec], is appended, and its identifier joins [seenIds]. *)
Fixpoint match_ (spec : SearchSpec) (rawListings : list RawListing)
    (seenIds : gset string) : MatchResult :=
  match rawListings with
  | [] => {| novel := []; seen_after := seenIds; skipped_malformed := 0 |}
  | raw :: rest =>
      match sourceId raw with
      | None =>
          let r := match_ spec rest seenIds in
          {| novel := novel r;
             seen_after := seen_after r;
             skipped_malformed := S (skipped_malformed r) |}
      | Some id =>
          if decide (id ∈ seenIds) then match_ spec rest seenIds
          else
            let r := match_ spec rest ({[id]} ∪ seenIds) in
            {| novel :=
                 {| listing_id := id; attributes := raw; matched_under := spec |}
                 :: novel r;
               seen_after := seen_after r;
               skipped_malformed := skipped_malformed r |}
      end
  end.

End Matching.

(* ===================================================================== *)
(** * A concrete bot and database, for the worked examples                *)
(* ===================================================================== *)

Module Demo.
Import Bot.

#[export] Instance re_fragment : ReLibrary := {|
Code := Re.regex;
Match := nat;
compile_code := Re.compile;
match_code := Re.match_
|}.

Fixpoint repeat_char (c : ascii) (n : nat) : string :=
match n with
| O => EmptyString
| S n' => String c (repeat_char c n')
end.

(** A traceback of 2020 characters. *)
Definition long_traceback : string :=
"Traceback " +:+ repeat_char "x" 2000 +:+ "ValueError".

(** Handlers are named by strings: [crash] raises a [ValueError],
  [cancelled] is cancelled, [shutdown] raises [SystemExit], any other
  returns. *)
Definition demo_call (f : string) : completion :=
if String.eqb f "crash"
then Raised {| exc_class := ExceptionSubclass; format_exc := long_traceback |}
else if String.eqb f "cancelled"
then Raised {| exc_class := CancelledError; format_exc := "CancelledError" |}
else if String.eqb f "shutdown"
then Raised {| exc_class := OtherBaseException; format_exc := "SystemExit" |}
else Returned.

#[export] Instance handlers : Handlers := {|
CommandHandler := string;
ReactionHandler := string;
call_command f _ _ _ := demo_call f;
call_reaction f _ _ _ := demo_call f
|}.

(** A platform on which every send is delivered. *)
#[export] Instance transport : Transport := {|
  channel_send _ _ := Returned
|}.

Definition moobot : User := {| user_id := 42; user_mention := "<@42>" |}.
Definition alice : User := {| user_id := 7; user_mention := "<@7>" |}.

Definition message_from (a : User) (id : Z) (text : string) : Message :=
{| message_id := id; author := a; content := text; channel := 100;
   mention_everyone := false; mentions := [] |}.

Definition bot_with (registry : gmap Z string) : DiscordBot string :=
{| client_user := Some moobot;
   command_prefix := Some "$";
   reaction_handlers := registry |}.

Definition bot : DiscordBot string := bot_with ∅.

(** The table after the given registrations, all of the fragment. *)
Definition table_of (rs : list (string * string)) : Table :=
  match register_all rs [] with
  | Py.Ok d => d
  | Py.Raise _ => []
  end.

(** The compiled pattern of a source text of the fragment. *)
Definition pat (r : string) : Pattern :=
  {| pattern := r; code := default Re.Empty (Re.compile r) |}.

(** A message of the bot itself that mentions the bot and starts with the
    command prefix. *)
Definition own_message : Message :=
  {| message_id := 3; author := moobot; content := "$debug reset <@42>";
     channel := 100; mention_everyone := false; mentions := [moobot] |}.

(** Reactions on two different messages. *)
Definition reaction_on (id : Z) : Reaction :=
  {| reaction_message := message_from moobot id "New listing: Couch";
     emoji := "thumbsup" |}.

(** A database with one spec of the prior schema and one of the current
    schema, both in a notifier and on listings. *)
Definition params : Py.json := Py.JObj {[ "query" := Py.JStr "couch" ]}.

Definition prior_spec : Py.json :=
  Py.JObj {[ "source" := Py.JStr "craigslist"; "search_params" := params ]}.

Definition current_spec : Py.json :=
  Py.JObj {[ "plugin_path" := Py.JStr Migration.PLUGIN_PATH;
             "search_params" := params ]}.

Definition database : Migration.Database :=
  {| Migration.notifiers :=
       [ {| Migration.config_json :=
              Migration.Json (Py.JObj
                {[ "channel_id" := Py.JInt 9;
                   "active_searches" :=
                     Py.JArr [ Py.JObj {[ "spec" := prior_spec ]};
                               Py.JObj {[ "spec" := current_spec ]} ] ]}) |} ];
     Migration.listings :=
       [ {| Migration.search_spec_json := Migration.Json prior_spec |};
         {| Migration.search_spec_json := Migration.Json current_spec |} ] |}.

(** A batch in which the second item carries no identifier and the last
    repeats the first. *)
Definition couch_search : Matching.SearchSpec :=
  {| Matching.criteria := {[ "query" := Py.JStr "couch" ]};
     Matching.plugin_path := Migration.PLUGIN_PATH |}.

Definition raw (id : option string) (t : string) : Matching.RawListing :=
  {| Matching.sourceId := id; Matching.title := t; Matching.price := "10";
     Matching.url := "https://example.org"; Matching.location := "here" |}.

Definition batch : list Matching.RawListing :=
  [ raw (Some "123") "Couch"; raw None "Chair"; raw (Some "456") "Sofa";
    raw (Some "123") "Couch" ].

End Demo.

(* ===================================================================== *)
(** * Counting the specs of the prior schema                              *)
(* ===================================================================== *)

Module Tally.
Import Py Migration Schema.

(** An active search whose spec carries a [source] key. *)
Definition is_prior_search (search : json) : bool :=
  match field search "spec" with
  | Some spec => has_source spec
  | None => false
  end.

Definition prior_searches (row : DbDiscordNotifier) : nat :=
  length (List.filter is_prior_search (active_searches (config_json row))).

Definition is_prior_listing (row : DbListing) : bool :=
  match search_spec_json row with
  | Json spec => has_source spec
  | _ => false
  end.

Definition prior_listings (rows : list DbListing) : nat :=
  length (List.filter is_prior_listing rows).

End Tally.

(** Databases with a row the migration cannot read. *)
Module Broken.
Import Py Migration.

Definition good_notifier : DbDiscordNotifier :=
  {| config_json :=
       Json (JObj {[ "active_searches" :=
                       JArr [ JObj {[ "spec" := Demo.prior_spec ]} ] ]}) |}.

Definition no_searches : gmap string json := {[ "channel_id" := JInt 9 ]}.

Definition missing_active_searches : Database :=
  {| notifiers := [ good_notifier; {| config_json := Json (JObj no_searches) |} ];
     listings := listings Demo.database |}.

Definition no_spec : gmap string json := {[ "name" := JStr "couches" ]}.

Definition searches_without_spec : gmap string json :=
  {[ "active_searches" :=
       JArr ([ JObj {[ "spec" := Demo.prior_spec ]} ] ++ JObj no_spec :: []) ]}.

Definition search_without_spec : Database :=
  {| notifiers := [ {| config_json := Json (JObj searches_without_spec) |} ];
     listings := listings Demo.database |}.

(** The second listing holds NULL. *)
Definition null_listing : Database :=
  {| notifiers := [ good_notifier ];
     listings := [ {| search_spec_json := Json Demo.prior_spec |};
                   {| search_spec_json := Null |} ] |}.

(** The second listing holds a text that is not JSON. *)
Definition malformed_listing : Database :=
  {| notifiers := [ good_notifier ];
     listings := [ {| search_spec_json := Json Demo.prior_spec |};
                   {| search_spec_json := Malformed |} ] |}.

End Broken.

(* ===================================================================== *)
(** * discord_bot.start: the callbacks given to the client                *)
(* ===================================================================== *)

Module Startup.
Import Bot.

(** The four coroutines [start] decorates with [@client.event]. *)
Inductive coroutine :=
  | on_ready
  | on_message
  | on_reaction_add
  | on_reaction_removed.

(** [coro.__name__]. *)
Definition coroutine_name (c : coroutine) : string :=
  match c with
  | on_ready => "on_ready"
  | on_message => "on_message"
  | on_reaction_add => "on_reaction_add"
  | on_reaction_removed => "on_reaction_removed"
  end.

(** [@client.event] of discord.py: the coroutine becomes the attribute of
    the client that bears the coroutine's name. *)
Definition client_event (c : coroutine) (attributes : gmap string coroutine)
  : gmap string coroutine :=
  <[coroutine_name c := c]> attributes.

(** The client after the four decorators of [start], in their order. *)
Definition start_events : gmap string coroutine :=
  client_event on_reaction_removed
    (client_event on_reaction_add
       (client_event on_message
          (client_event on_ready ∅))).

(** The events of the gateway that concern messages and reactions, with the
    names under which discord.py dispatches them. *)
Inductive gateway_event :=
  | message_event (message : Message)
  | reaction_add_event (reaction : Reaction) (user : User)
  | reaction_remove_event (reaction : Reaction) (user : User).

Definition event_name (ev : gateway_event) : string :=
  match ev with
  | message_event _ => "message"
  | reaction_add_event _ _ => "reaction_add"
  | reaction_remove_event _ _ => "reaction_remove"
  end.

Section Startup.
Context {lib : ReLibrary} {hs : Handlers} {tr : Transport}.

(** [DiscordBot.__init__]. *)
Definition DiscordBot_init (client_user : option User)
    (command_prefix : option string) : DiscordBot ReactionHandler :=
  {| client_user := client_user;
     command_prefix := command_prefix;
     reaction_handlers := ∅ |}.

(** [DiscordBot(client)] in [start]: the prefix has its default. *)
Definition started_bot (client_user : option User) : DiscordBot ReactionHandler :=
  DiscordBot_init client_user (Some "$").

(** The bodies of the coroutines on the arguments of an event. The body of
    [on_ready] calls [moobot.events], which is not part of the sources; a
    coroutine handed the arguments of an event of another kind does
    nothing here. *)
Definition run (c : coroutine) (self : DiscordBot ReactionHandler) (d : Table)
    (ev : gateway_event) : list event * completion :=
  match c, ev with
  | on_message, message_event message => Bot.on_message self d message
  | on_reaction_add, reaction_add_event reaction user =>
      on_reaction_change self ADDED reaction user
  | on_reaction_add, reaction_remove_event reaction user =>
      on_reaction_change self ADDED reaction user
  | on_reaction_removed, reaction_add_event reaction user =>
      on_reaction_change self REMOVED reaction user
  | on_reaction_removed, reaction_remove_event reaction user =>
      on_reaction_change self REMOVED reaction user
  | _, _ => ([], Returned)
  end.

(** [Client.dispatch(event, *args)] of discord.py: the attribute named
    ["on_" + event] is called with the arguments when the client has it,
    and nothing happens otherwise. *)
Definition dispatch_event (self : DiscordBot ReactionHandler) (d : Table)
    (ev : gateway_event) : list event * completion :=
  match start_events !! ("on_" +:+ event_name ev) with
  | Some c => run c self d ev
  | None => ([], Returned)
  end.

End Startup.

End Startup.

(* ===================================================================== *)
(** * More messages and handlers for the worked examples                  *)
(* ===================================================================== *)

Module Samples.
Import Bot Demo.

(** A message that starts with the bot's mention. *)
Definition mention_message : Message :=
  {| message_id := 5; author := alice; content := "<@!42>  debug reset ";
     channel := 100; mention_everyone := false; mentions := [moobot] |}.

(** A message to everyone that starts with the command prefix. *)
Definition everyone_message : Message :=
  {| message_id := 6; author := alice; content := "$help @everyone";
     channel := 100; mention_everyone := true; mentions := [] |}.

(** Handlers of which [oops] raises a [KeyError] with a short traceback. *)
Definition short_exception : exception :=
  {| exc_class := ExceptionSubclass; format_exc := "KeyError: 'spec'" |}.

Definition short_call (f : string) : completion :=
  if String.eqb f "oops" then Raised short_exception else Returned.

Definition short_handlers : Handlers := {|
  CommandHandler := string;
  ReactionHandler := string;
  call_command f _ _ _ := short_call f;
  call_reaction f _ _ _ := short_call f
|}.

(** A platform that refuses every send. *)
Definition forbidden : exception :=
  {| exc_class := ExceptionSubclass;
     format_exc := "discord.errors.Forbidden: 403 Forbidden" |}.

Definition refusing_transport : Transport := {|
  channel_send _ _ := Raised forbidden
|}.

Definition crash_exception : exception :=
  {| exc_class := ExceptionSubclass; format_exc := long_traceback |}.

End Samples.

(* ===================================================================== *)
(** * The migration converts the prior schema, once                       *)
(* ===================================================================== *)

Module MigrationFacts.
Import Py Migration Schema.

Ltac unfold_bind := unfold mbind, result_bind, Py.bind in *.

Lemma switch_spec_object (fields : gmap string json) :
  switch_spec (JObj fields) =
    if bool_decide (is_Some (fields !! "source"))
    then Ok (Some (JObj (<["plugin_path" := JStr PLUGIN_PATH]> (delete "source" fields))))
    else Ok None.
Proof.
  unfold switch_spec; unfold_bind; simpl.
  case_bool_decide as Hs; simpl; [|done].
  destruct Hs as [v ->]. done.
Qed.

Lemma switch_spec_some_object spec spec' :
  switch_spec spec = Ok (Some spec') ->
  exists fields, spec = JObj fields /\ is_Some (fields !! "source")
    /\ spec' = JObj (<["plugin_path" := JStr PLUGIN_PATH]> (delete "source" fields)).
Proof.
  destruct spec as [| | | | s |items|fields]; try discriminate.
  - unfold switch_spec; unfold_bind; simpl. by destruct (str_contains _ _).
  - unfold switch_spec; unfold_bind; simpl. by destruct (existsb _ _).
  - rewrite switch_spec_object. case_bool_decide; [|done].
    intros [= <-]. eauto.
Qed.

Lemma switch_spec_none_no_source spec :
  switch_spec spec = Ok None -> has_source spec = false.
Proof.
  destruct spec as [| | | | s |items|fields]; try done.
  rewrite switch_spec_object. unfold has_source; simpl.
  by case_bool_decide.
Qed.

Lemma converted_spec_no_source fields :
  has_source (JObj (<["plugin_path" := JStr PLUGIN_PATH]> (delete "source" fields))) = false.
Proof.
  unfold has_source; simpl. apply bool_decide_eq_false. intros [v Hv].
  rewrite lookup_insert_ne in Hv; [|done]. by rewrite lookup_delete_eq in Hv.
Qed.

Lemma switch_spec_converted spec r :
  switch_spec spec = Ok r -> spec_converted spec (default spec r).
Proof.
  destruct r as [spec'|]; simpl; intros Hs.
  - apply switch_spec_some_object in Hs as (fields & -> & Hsrc & ->).
    unfold spec_converted, has_source; simpl.
    rewrite bool_decide_eq_true_2; [|done].
    split_and!.
    + rewrite lookup_insert_ne; [|done]. apply lookup_delete_eq.
    + apply lookup_insert_eq.
    + intros key H1 H2. rewrite lookup_insert_ne; [|done]. by rewrite lookup_delete_ne.
  - unfold spec_converted. by rewrite (switch_spec_none_no_source _ Hs).
Qed.

Lemma switch_spec_twice spec spec' :
  switch_spec spec = Ok (Some spec') -> switch_spec spec' = Ok None.
Proof.
  intros Hs. apply switch_spec_some_object in Hs as (fields & -> & _ & ->).
  rewrite switch_spec_object.
  pose proof (converted_spec_no_source fields) as Hn.
  unfold has_source in Hn; simpl in Hn. by rewrite Hn.
Qed.


Lemma getitem_ok obj key v :
  getitem obj key = Ok v -> exists fields, obj = JObj fields /\ fields !! key = Some v.
Proof.
  destruct obj as [| | | | |?|fields]; try discriminate. simpl.
  destruct (fields !! key) eqn:E; [|discriminate]. intros [= ->]. eauto.
Qed.

(** One pass over a list of searches: every search is converted, a second
    pass finds nothing to do, and a pass that counted nothing changed
    nothing. *)
Lemma update_searches_ok searches searches' n :
  update_searches searches = Ok (searches', n) ->
  Forall2 search_converted searches searches'
  /\ update_searches searches' = Ok (searches', 0%nat)
  /\ (n = 0%nat -> searches' = searches).
Proof.
  revert searches' n.
  induction searches as [|search rest IH]; intros searches' n; simpl.
  { intros [= <- <-]. by split_and!. }
  unfold_bind.
  destruct (getitem search "spec") as [spec|] eqn:Hget; [|discriminate].
  destruct (switch_spec spec) as [changed|] eqn:Hsw; [|discriminate].
  destruct (update_searches rest) as [[rest' m]|] eqn:Hrest; [|discriminate].
  destruct (IH _ _ eq_refl) as (Hconv & Hagain & Hsame).
  apply getitem_ok in Hget as (g & -> & Hg).
  destruct changed as [spec'|]; intros [= <- <-].
  - split_and!.
    + constructor; [|done].
      exists spec, spec'. simpl. split_and!; [done|apply lookup_insert_eq| |].
      * by apply (switch_spec_converted spec (Some spec')).
      * intros key Hk. by rewrite lookup_insert_ne.
    + simpl. unfold_bind. rewrite lookup_insert_eq.
      rewrite (switch_spec_twice _ _ Hsw). by rewrite Hagain.
    + done.
  - split_and!.
    + constructor; [|done].
      exists spec, spec. simpl. split_and!; [done|done| |done].
      by apply (switch_spec_converted spec None).
    + simpl. unfold_bind. rewrite Hg, Hsw. by rewrite Hagain.
    + intros ->. by rewrite Hsame.
Qed.

(** Iterating anything but a list yields strings, on which [search["spec"]]
    raises: such a loop succeeds only when it has nothing to iterate. *)
Lemma update_searches_strings (l : list string) searches' n :
  update_searches (JStr <$> l) = Ok (searches', n) -> l = [].
Proof. destruct l; [done|]. simpl. by unfold_bind. Qed.

Lemma chars_strings s : exists l, chars s = JStr <$> l.
Proof.
  induction s as [|c s [l IH]]; [by exists []|].
  exists (String c EmptyString :: l). simpl. by rewrite IH.
Qed.

(** What the loop of one notifier iterates: the list itself, or else
    nothing at all. *)
Lemma iter_searches active searches searches' n :
  iter active = Ok searches ->
  update_searches searches = Ok (searches', n) ->
  active = JArr searches
  \/ (n = 0%nat /\ forall items, active <> JArr items).
Proof.
  destruct active as [| | | | s |items|fields]; try discriminate; simpl.
  - intros [= <-] Hup. right. destruct (chars_strings s) as [l Hl].
    rewrite Hl in Hup. pose proof (update_searches_strings _ _ _ Hup) as ->.
    by injection Hup as <- <-.
  - intros [= <-] _. by left.
  - intros [= <-] Hup. right.
    pose proof (update_searches_strings _ _ _ Hup) as Hnil.
    rewrite Hnil in Hup. by injection Hup as <- <-.
Qed.

Lemma notifier_converted_refl row :
  Forall2 search_converted
    (active_searches (config_json row)) (active_searches (config_json row)) ->
  notifier_converted row row.
Proof. by split. Qed.

Lemma update_notifier_ok row row' n :
  update_notifier row = Ok (row', n) ->
  notifier_converted row row'
  /\ update_notifier row' = Ok (row', 0%nat)
  /\ (n = 0%nat -> row' = row).
Proof.
  intros Hrun. pose proof Hrun as Hrun0. revert Hrun.
  unfold update_notifier at 1; unfold_bind.
  destruct row as [[| |doc]]; simpl; [discriminate..|].
  destruct (getitem doc "active_searches") as [active|] eqn:Hget; [|discriminate].
  apply getitem_ok in Hget as (top & -> & Htop).
  destruct (iter active) as [searches|] eqn:Hiter; [|discriminate].
  destruct (update_searches searches) as [[searches' m]|] eqn:Hup; [|discriminate].
  destruct (update_searches_ok _ _ _ Hup) as (Hconv & Hagain & Hsame).
  destruct (decide (m = 0%nat)) as [->|Hm]; simpl.
  - (* nothing to update: the row is not written *)
    intros [= <- <-]. split_and!; [|done|done].
    apply notifier_converted_refl. unfold active_searches; simpl. rewrite Htop.
    destruct (iter_searches _ _ _ _ Hiter Hup) as [->|[_ Hother]].
    + by rewrite (Hsame eq_refl) in Hconv.
    + destruct active; try constructor. by destruct (Hother items).
  - (* some search was updated: the list is written back *)
    destruct (iter_searches _ _ _ _ Hiter Hup) as [->|[? _]]; [|done].
    replace (negb (m =? 0)%nat) with true
      by (symmetry; apply negb_true_iff, Nat.eqb_neq; done).
    intros [= <- <-]. split_and!; [split| |done].
    + unfold active_searches; simpl. by rewrite Htop, lookup_insert_eq.
    + intros key Hk. simpl. by rewrite lookup_insert_ne.
    + unfold update_notifier; unfold_bind; simpl.
      rewrite lookup_insert_eq; simpl. by rewrite Hagain.
Qed.

Lemma update_notifier_rows_ok rows rows' n :
  update_notifier_rows rows = Ok (rows', n) ->
  Forall2 notifier_converted rows rows'
  /\ update_notifier_rows rows' = Ok (rows', 0%nat).
Proof.
  revert rows' n. induction rows as [|row rest IH]; intros rows' n; simpl.
  { intros [= <- <-]. by split. }
  unfold_bind.
  destruct (update_notifier row) as [[row' k]|] eqn:Hrow; [|discriminate].
  destruct (update_notifier_rows rest) as [[rest' m]|] eqn:Hrest; [|discriminate].
  intros [= <- <-].
  destruct (update_notifier_ok _ _ _ Hrow) as (Hconv & Hagain & _).
  destruct (IH _ _ eq_refl) as (Hrestconv & Hrestagain).
  split; [by constructor|].
  simpl. unfold_bind. by rewrite Hagain, Hrestagain.
Qed.

Lemma update_listing_ok row row' n :
  update_listing row = Ok (row', n) ->
  listing_converted row row' /\ update_listing row' = Ok (row', 0%nat).
Proof.
  unfold update_listing; unfold_bind.
  destruct row as [[| |spec]]; simpl; [discriminate..|].
  destruct (switch_spec spec) as [[spec'|]|] eqn:Hsw; [| |discriminate];
    intros [= <- <-].
  - split.
    + exists spec, spec'. split_and!; [done|done|].
      by apply (switch_spec_converted spec (Some spec')).
    + simpl. by rewrite (switch_spec_twice _ _ Hsw).
  - split.
    + exists spec, spec. split_and!; [done|done|].
      by apply (switch_spec_converted spec None).
    + simpl. by rewrite Hsw.
Qed.

Lemma update_listing_rows_ok rows rows' n :
  update_listing_rows rows = Ok (rows', n) ->
  Forall2 listing_converted rows rows'
  /\ update_listing_rows rows' = Ok (rows', 0%nat).
Proof.
  revert rows' n. induction rows as [|row rest IH]; intros rows' n; simpl.
  { intros [= <- <-]. by split. }
  unfold_bind.
  destruct (update_listing row) as [[row' k]|] eqn:Hrow; [|discriminate].
  destruct (update_listing_rows rest) as [[rest' m]|] eqn:Hrest; [|discriminate].
  intros [= <- <-].
  destruct (update_listing_ok _ _ _ Hrow) as (Hconv & Hagain).
  destruct (IH _ _ eq_refl) as (Hrestconv & Hrestagain).
  split; [by constructor|].
  simpl. unfold_bind. by rewrite Hagain, Hrestagain.
Qed.

(** ** Rows of the expected shape are migrated without an exception *)

Lemma update_searches_total searches :
  forallb search_ok searches = true -> is_ok (update_searches searches) = true.
Proof.
  induction searches as [|search rest IH]; [done|]; simpl.
  intros [Hs Hrest]%andb_true_iff. specialize (IH Hrest).
  unfold search_ok, field in Hs.
  destruct search as [| | | | |?|g]; try discriminate. simpl.
  destruct (g !! "spec") as [spec|]; [|discriminate].
  destruct spec as [| | | | |?|fields]; try discriminate.
  unfold_bind. rewrite switch_spec_object.
  destruct (update_searches rest) as [[rest' m]|]; [|discriminate].
  by case_bool_decide.
Qed.

Lemma update_notifier_rows_total rows :
  forallb notifier_ok rows = true -> is_ok (update_notifier_rows rows) = true.
Proof.
  induction rows as [|row rest IH]; [done|]; simpl.
  intros [Hrow Hrest]%andb_true_iff. specialize (IH Hrest).
  unfold_bind.
  assert (is_ok (update_notifier row) = true) as Hok.
  { unfold notifier_ok, column_field, field in Hrow.
    unfold update_notifier; unfold_bind.
    destruct row as [[| |doc]]; simpl in *; [discriminate..|].
    destruct doc as [| | | | |?|top]; try discriminate. simpl.
    destruct (top !! "active_searches") as [active|]; [|discriminate].
    destruct active as [| | | | |searches|?]; try discriminate. simpl.
    pose proof (update_searches_total _ Hrow) as Hs.
    destruct (update_searches searches) as [[searches' m]|]; [|discriminate].
    by destruct (negb _). }
  destruct (update_notifier row) as [[row' k]|]; [|discriminate].
  by destruct (update_notifier_rows rest) as [[rest' m]|].
Qed.

Lemma update_listing_rows_total rows :
  forallb listing_ok rows = true -> is_ok (update_listing_rows rows) = true.
Proof.
  induction rows as [|row rest IH]; [done|]; simpl.
  intros [Hrow Hrest]%andb_true_iff. specialize (IH Hrest).
  unfold_bind.
  assert (is_ok (update_listing row) = true) as Hok.
  { unfold listing_ok in Hrow. unfold update_listing; unfold_bind.
    destruct row as [[| |spec]]; simpl in *; [discriminate..|].
    destruct spec as [| | | | |?|fields]; try discriminate.
    rewrite switch_spec_object. by case_bool_decide. }
  destruct (update_listing row) as [[row' k]|]; [|discriminate].
  by destruct (update_listing_rows rest) as [[rest' m]|].
Qed.

Lemma main_ok db db' n m :
  main db = (db', Ok (n, m)) ->
  Forall2 notifier_converted (notifiers db) (notifiers db')
  /\ Forall2 listing_converted (listings db) (listings db')
  /\ main db' = (db', Ok (0%nat, 0%nat)).
Proof.
  unfold main, update_notifiers, update_listings.
  destruct (update_notifier_rows (notifiers db)) as [[rows k]|] eqn:Hn; [|done].
  simpl.
  destruct (update_listing_rows (listings db)) as [[lrows j]|] eqn:Hl; [|done].
  intros [= <- <- <-]. simpl.
  destruct (update_notifier_rows_ok _ _ _ Hn) as (Hnc & Hnagain).
  destruct (update_listing_rows_ok _ _ _ Hl) as (Hlc & Hlagain).
  split_and!; [done|done|].
  rewrite Hnagain. simpl. by rewrite Hlagain.
Qed.

Lemma main_total db :
  database_ok db = true -> exists db' n m, main db = (db', Ok (n, m)).
Proof.
  unfold database_ok. intros [Hn Hl]%andb_true_iff.
  apply update_notifier_rows_total in Hn. apply update_listing_rows_total in Hl.
  unfold main, update_notifiers, update_listings.
  destruct (update_notifier_rows (notifiers db)) as [[rows k]|]; [|discriminate].
  simpl. destruct (update_listing_rows (listings db)) as [[lrows j]|]; [|discriminate].
  eauto.
Qed.


(** ** The two claims about the migration *)

(** C8. On a database whose rows have the shape the application writes, the
    migration completes, and afterwards every spec in a notifier's
    active-search list and every spec stored on a listing is converted:
    a spec with a [source] key has lost that key and carries
    [plugin_path = "plugins.craigslist.plugin:CraigslistPlugin"] with its
    other keys untouched, and a spec without [source] is unchanged
    ([spec_converted]). The plugin path has the shape
    [<namespace>:<symbol>]. *)
Theorem switch_to_plugins_converts_specs db :
  database_ok db = true ->
  exists db' n m,
    main db = (db', Ok (n, m))
    /\ Forall2 notifier_converted (notifiers db) (notifiers db')
    /\ Forall2 listing_converted (listings db) (listings db')
    /\ has_plugin_path_shape PLUGIN_PATH = true.
Proof.
  intros Hok. destruct (main_total db Hok) as (db' & n & m & Hmain).
  exists db', n, m. destruct (main_ok _ _ _ _ Hmain) as (Hn & Hl & _).
  by split_and!.
Qed.

Lemma switch_to_plugins_converts_specs_witness :
  database_ok Demo.database = true
  /\ exists db' n m,
       main Demo.database = (db', Ok (n, m))
       /\ Forall2 notifier_converted (notifiers Demo.database) (notifiers db')
       /\ Forall2 listing_converted (listings Demo.database) (listings db')
       /\ has_plugin_path_shape PLUGIN_PATH = true.
Proof.
  split; [reflexivity|].
  apply (switch_to_plugins_converts_specs Demo.database). reflexivity.
Defined.

(** C10. The transformation of one spec is idempotent: a spec it has
    converted is skipped when it is met again. Hence, after a run of the
    migration that completed, a second run updates no search and no
    listing and leaves the database exactly as the first run left it. *)
Theorem switch_to_plugins_idempotent db db1 n m :
  main db = (db1, Ok (n, m)) ->
  (forall spec spec',
     switch_spec spec = Ok (Some spec') -> switch_spec spec' = Ok None)
  /\ main db1 = (db1, Ok (0%nat, 0%nat)).
Proof.
  intros Hmain. split; [apply switch_spec_twice|].
  by destruct (main_ok _ _ _ _ Hmain) as (_ & _ & Hagain).
Qed.

Lemma switch_to_plugins_idempotent_witness :
  (main Demo.database).2 = Ok (1%nat, 1%nat)
  /\ main (main Demo.database).1 = ((main Demo.database).1, Ok (0%nat, 0%nat)).
Proof.
  split; [reflexivity|].
  apply (switch_to_plugins_idempotent Demo.database _ 1%nat 1%nat).
  reflexivity.
Defined.

End MigrationFacts.

(* ===================================================================== *)
(** * The matching engine never reports a listing twice                   *)
(* ===================================================================== *)

Module MatchingFacts.
Import Matching.

Lemma match_seen_grows spec raws seen :
  seen ⊆ seen_after (match_ spec raws seen).
Proof.
  revert seen. induction raws as [|raw rest IH]; intros seen; simpl; [done|].
  destruct (sourceId raw) as [id|]; simpl; [|apply IH].
  case_decide; simpl; [apply IH|].
  specialize (IH ({[id]} ∪ seen)). set_solver.
Qed.

Lemma match_records_batch spec raws seen raw id :
  raw ∈ raws -> sourceId raw = Some id ->
  id ∈ seen_after (match_ spec raws seen).
Proof.
  revert seen. induction raws as [|r rest IH]; intros seen Hin Hid.
  { by apply elem_of_nil in Hin. }
  apply elem_of_cons in Hin as [<-|Hin]; simpl.
  - rewrite Hid. case_decide; simpl.
    + by apply match_seen_grows.
    + apply match_seen_grows. set_solver.
  - destruct (sourceId r) as [id'|]; simpl; [|by apply IH].
    case_decide; simpl; by apply IH.
Qed.

Lemma match_all_seen spec raws seen :
  (forall raw id, raw ∈ raws -> sourceId raw = Some id -> id ∈ seen) ->
  novel (match_ spec raws seen) = [].
Proof.
  induction raws as [|r rest IH]; intros Hall; simpl; [done|].
  assert (novel (match_ spec rest seen) = []) as Hrest.
  { apply IH. intros raw id' Hin. apply Hall. by right. }
  destruct (sourceId r) as [id|] eqn:Hid; simpl; [|done].
  rewrite decide_True; [done|]. apply (Hall r); [left|done].
Qed.

Lemma match_novel_unseen spec raws seen l :
  l ∈ novel (match_ spec raws seen) ->
  (listing_id l ∉ seen) /\ matched_under l = spec.
Proof.
  revert seen. induction raws as [|r rest IH]; intros seen; simpl.
  { intros Hin. by apply elem_of_nil in Hin. }
  destruct (sourceId r) as [id|]; simpl; [|apply IH].
  case_decide; simpl; [apply IH|].
  intros [->|Hin]%elem_of_cons; [done|].
  destruct (IH _ Hin) as [Hnot ?]. split; [|done].
  intros Hseen. apply Hnot. by apply elem_of_union_r.
Qed.

(** C1. Running the engine a second time on the same batch, with the
    seen-set the first run left, returns no listing; and no run ever emits
    a listing whose identifier is already in the seen-set it is given for
    that spec. *)
Theorem match_twice_yields_nothing spec raws seen :
  novel (match_ spec raws (seen_after (match_ spec raws seen))) = []
  /\ (forall batch ledger l,
        l ∈ novel (match_ spec batch ledger) ->
        (listing_id l ∉ ledger) /\ matched_under l = spec).
Proof.
  split.
  - apply match_all_seen. intros raw id. apply match_records_batch.
  - intros batch ledger l. apply match_novel_unseen.
Qed.

Lemma match_twice_yields_nothing_witness :
  length (novel (match_ Demo.couch_search Demo.batch ∅)) = 2%nat
  /\ novel (match_ Demo.couch_search Demo.batch
              (seen_after (match_ Demo.couch_search Demo.batch ∅))) = [].
Proof.
  split; [reflexivity|].
  apply (match_twice_yields_nothing Demo.couch_search Demo.batch ∅).
Defined.

End MatchingFacts.

(* ===================================================================== *)
(** * Routing of commands and reactions                                   *)
(* ===================================================================== *)

Module BotFacts.
Import Bot.

(** ** Text *)

Lemma str_drop_length n s :
  String.length (str_drop n s) = (String.length s - n)%nat.
Proof.
  revert s. induction n as [|n IH]; intros [|c s]; simpl; [done..|apply IH].
Qed.

Lemma str_drop_suffix n s : exists dropped, s = dropped +:+ str_drop n s.
Proof.
  revert s. induction n as [|n IH]; intros s.
  { by exists EmptyString. }
  destruct s as [|c s]; [by exists EmptyString|].
  destruct (IH s) as [d Hd]. exists (String c d).
  change (String c s = String c (d +:+ str_drop n s)). by f_equal.
Qed.

Lemma last_chars_length n s :
  String.length (last_chars n s) = Nat.min n (String.length s).
Proof. unfold last_chars. rewrite str_drop_length. lia. Qed.

Lemma last_chars_short n s :
  (String.length s <= n)%nat -> last_chars n s = s.
Proof.
  unfold last_chars. intros Hle.
  replace (String.length s - n)%nat with 0%nat by lia. done.
Qed.

Section Router.
Context {lib : ReLibrary} {hs : Handlers} {tr : Transport}.

Implicit Types (d : Table) (self : DiscordBot ReactionHandler).

Lemma dispatch_first_match self before p f after message command m :
  none_matches before command ->
  match_code (code p) command = Some m ->
  dispatch self (before ++ (p, f) :: after) message command
  = run_handler self message f m.
Proof.
  intros Hnone Hm. induction Hnone as [|[q g] rest Hq _ IH]; simpl.
  - by rewrite Hm.
  - simpl in Hq. by rewrite Hq.
Qed.

Lemma dispatch_no_match self d message command :
  none_matches d command ->
  dispatch self d message command = ([], Returned).
Proof.
  intros Hnone. induction Hnone as [|[q g] rest Hq _ IH]; simpl; [done|].
  simpl in Hq. by rewrite Hq.
Qed.

(** The router calls at most one handler, whatever the table. *)
Lemma dispatch_calls self d message command :
  dispatch self d message command = ([], Returned)
  \/ exists f m, dispatch self d message command = run_handler self message f m.
Proof.
  induction d as [|[q g] rest IH]; simpl; [by left|].
  destruct (match_code (code q) command) as [m|]; [right; eauto|done].
Qed.

(** ** The table as a dict *)

Lemma dict_set_fresh d p f :
  pattern p ∉ keys d -> dict_set d p f = d ++ [(p, f)].
Proof.
  induction d as [|[q g] rest IH]; simpl; [done|].
  intros Hnot. apply not_elem_of_cons in Hnot as [Hne Hrest].
  unfold pattern_eqb. rewrite (proj2 (String.eqb_neq _ _)); [|done].
  by rewrite IH.
Qed.

Lemma dict_set_keys d p f :
  pattern p ∈ keys d -> keys (dict_set d p f) = keys d.
Proof.
  induction d as [|[q g] rest IH]; simpl.
  { intros Hin. by apply elem_of_nil in Hin. }
  unfold pattern_eqb. destruct (String.eqb_spec (pattern q) (pattern p)) as [Heq|Hne].
  - done.
  - intros [?|Hin]%elem_of_cons; [done|]. simpl. f_equal. by apply IH.
Qed.


Lemma keys_app d1 d2 : keys (d1 ++ d2) = keys d1 ++ keys d2.
Proof. unfold keys. apply fmap_app. Qed.

(** Registrations under pairwise different patterns end up in the table in
    the order in which they were made. *)
Lemma register_all_distinct rs d :
  NoDup rs.*1 ->
  (forall r, r ∈ rs.*1 -> r ∉ keys d) ->
  Forall (fun r => is_Some (compile_code r)) rs.*1 ->
  exists d', register_all rs d = Py.Ok (d ++ d') /\ Forall2 registered rs d'.
Proof.
  revert d. induction rs as [|[r f] rest IH]; intros d Hnodup Hfresh Hvalid.
  { exists []. split; [by rewrite app_nil_r|constructor]. }
  simpl in *. apply NoDup_cons in Hnodup as [Hr Hnodup].
  apply Forall_cons in Hvalid as [[c Hc] Hvalid].
  unfold command, re_compile, mbind, result_bind. rewrite Hc. simpl.
  rewrite dict_set_fresh; [|apply Hfresh; by left].
  destruct (IH (d ++ [({| pattern := r; code := c |}, f)])) as (d' & Hrun & Hd');
    [done| |done|].
  { intros r' Hin. rewrite keys_app. simpl.
    intros [Hd|Hp%list_elem_of_singleton]%elem_of_app.
    - apply (Hfresh r'); [by right|done].
    - by subst r'. }
  exists (({| pattern := r; code := c |}, f) :: d'). split.
  - rewrite Hrun. by rewrite <- app_assoc.
  - by constructor.
Qed.

(** ** What [on_message] does with a command *)

Lemma on_message_command self d message command :
  is_client_user (client_user self) (author message) = false ->
  get_command_from_message self message = Some command ->
  on_message self d message
  = (LogInfo ("Received command: " +:+ command)
       :: (dispatch self d message command).1,
     (dispatch self d message command).2).
Proof.
  intros Hother Hcommand. unfold on_message. rewrite Hother, Hcommand.
  by destruct (dispatch self d message command).
Qed.

(** The handler stored with the first pattern that matches is the one
    handler that is called. *)
Lemma on_message_first_match self before p f after message command m :
  is_client_user (client_user self) (author message) = false ->
  get_command_from_message self message = Some command ->
  none_matches before command ->
  match_code (code p) command = Some m ->
  on_message self (before ++ (p, f) :: after) message
  = (LogInfo ("Received command: " +:+ command)
       :: (run_handler self message f m).1,
     (run_handler self message f m).2).
Proof.
  intros Hother Hcommand Hnone Hm.
  rewrite (on_message_command _ _ _ command); [|done..].
  by rewrite (dispatch_first_match _ _ _ _ _ _ _ m).
Qed.

(** X14. With pairwise different patterns, the function registered first among
    those whose pattern matches is the one handler that is called. *)
Lemma first_registered_handler_wins
    self rs_before r f rs_after message command c m :
  let rs := rs_before ++ (r, f) :: rs_after in
  NoDup rs.*1 ->
  Forall (fun r' => is_Some (compile_code r')) rs.*1 ->
  is_client_user (client_user self) (author message) = false ->
  get_command_from_message self message = Some command ->
  (forall r' c', r' ∈ rs_before.*1 -> compile_code r' = Some c' ->
     match_code c' command = None) ->
  compile_code r = Some c ->
  match_code c command = Some m ->
  exists d,
    register_all rs [] = Py.Ok d
    /\ on_message self d message
       = (LogInfo ("Received command: " +:+ command)
            :: (run_handler self message f m).1,
          (run_handler self message f m).2).
Proof.
  intros rs Hnodup Hvalid Hother Hcommand Hbefore Hc Hm.
  destruct (register_all_distinct rs [] Hnodup) as (d & Hrun & Hd);
    [intros r' _ Hin; by apply elem_of_nil in Hin|done|].
  exists d. split; [done|].
  apply Forall2_app_inv_l in Hd as (before & rest & Hb & Hrest & ->).
  apply Forall2_cons_inv_l in Hrest as ([p g] & after & (Hp & Hcode & Hg) & _ & ->).
  simpl in *. subst g. rewrite Hc in Hcode. injection Hcode as ->.
  apply on_message_first_match; [done|done| |done].
  clear -Hb Hbefore.
  induction Hb as [|[r' f'] [q g] rs' d' (Hq & Hcode & _) _ IH]; [constructor|].
  constructor.
  - simpl in *. apply (Hbefore r'); [by left|done].
  - apply IH. intros r'' c'' Hin. apply Hbefore. by right.
Qed.

(** C3, as amended. When the matched handler raises an instance of
    [Exception], the router hands one message to the channel of the
    command, namely the apology followed by the last 1900 characters at
    most of the formatted traceback. When that send returns, the router
    completes by raising the handler's exception again; when the send
    itself raises, it is the send's exception that the router raises. *)
Theorem handler_exception_reported self before p f after message command m e :
  is_client_user (client_user self) (author message) = false ->
  get_command_from_message self message = Some command ->
  none_matches before command ->
  match_code (code p) command = Some m ->
  call_command f self message m = Raised e ->
  exc_class e = ExceptionSubclass ->
  exists diagnostic dropped,
    let text :=
      "Sorry " +:+ user_mention (author message)
      +:+ "! Something went wrong while running your command.```"
      +:+ diagnostic +:+ "```" in
    (on_message self (before ++ (p, f) :: after) message).1
    = [LogInfo ("Received command: " +:+ command);
       CallCommand f message m;
       ChannelSend (channel message) text]
    /\ (channel_send (channel message) text = Returned ->
        (on_message self (before ++ (p, f) :: after) message).2 = Raised e)
    /\ (forall send_error,
          channel_send (channel message) text = Raised send_error ->
          (on_message self (before ++ (p, f) :: after) message).2
          = Raised send_error)
    /\ format_exc e = dropped +:+ diagnostic
    /\ String.length diagnostic = Nat.min 1900 (String.length (format_exc e))
    /\ (String.length diagnostic <= 1900)%nat.
Proof.
  intros Hother Hcommand Hnone Hm Hraise Hclass.
  destruct (str_drop_suffix (String.length (format_exc e) - 1900) (format_exc e))
    as [dropped Hdropped].
  exists (last_chars 1900 (format_exc e)), dropped.
  rewrite (on_message_first_match _ _ _ _ _ _ command m); [|done..].
  unfold run_handler, report_and_raise. rewrite Hraise, Hclass.
  fold (error_text message e). simpl.
  split_and!.
  - done.
  - by intros ->.
  - by intros send_error ->.
  - done.
  - apply last_chars_length.
  - rewrite last_chars_length. lia.
Qed.

(** C4. When the matched handler is cancelled, the router sends nothing and
    completes by raising that same [CancelledError]. *)
Theorem handler_cancellation_propagates self before p f after message command m e :
  is_client_user (client_user self) (author message) = false ->
  get_command_from_message self message = Some command ->
  none_matches before command ->
  match_code (code p) command = Some m ->
  call_command f self message m = Raised e ->
  exc_class e = CancelledError ->
  on_message self (before ++ (p, f) :: after) message
  = ([LogInfo ("Received command: " +:+ command); CallCommand f message m],
     Raised e).
Proof.
  intros Hother Hcommand Hnone Hm Hraise Hclass.
  rewrite (on_message_first_match _ _ _ _ _ _ command m); [|done..].
  unfold run_handler. by rewrite Hraise, Hclass.
Qed.

(** C5. A command that no pattern of the table matches is dropped: the
    router writes its log line, calls no handler, sends no message and
    returns normally. *)
Theorem unmatched_command_ignored self d message command :
  is_client_user (client_user self) (author message) = false ->
  get_command_from_message self message = Some command ->
  none_matches d command ->
  on_message self d message
  = ([LogInfo ("Received command: " +:+ command)], Returned).
Proof.
  intros Hother Hcommand Hnone.
  rewrite (on_message_command _ _ _ command); [|done..].
  by rewrite dispatch_no_match.
Qed.

(** C9. A message written by the bot's own user has no effect at all,
    whatever it contains or mentions: nothing is logged, called or sent, and
    [on_message] returns. *)
Theorem own_message_ignored self d message u :
  client_user self = Some u ->
  user_id (author message) = user_id u ->
  on_message self d message = ([], Returned).
Proof.
  intros Huser Hid. unfold on_message, is_client_user, user_eqb.
  rewrite Huser, Hid, Z.eqb_refl. done.
Qed.

(** ** Reactions *)

(** C6. A reaction event is routed by the id of its message: the handler
    bound to that id, if there is one, is the one call made, with the
    action, the reaction and the user; with no handler bound to that id
    nothing happens. In particular a registry in which a handler was just
    bound to another message leaves the event without effect. *)
Theorem reaction_routed_by_message_id self action reaction user :
  (forall f,
     reaction_handlers self !! message_id (reaction_message reaction) = Some f ->
     on_reaction_change self action reaction user
     = ([CallReaction f action reaction user],
        call_reaction f action reaction user))
  /\ (reaction_handlers self !! message_id (reaction_message reaction) = None ->
      on_reaction_change self action reaction user = ([], Returned))
  /\ (forall M1 f registry,
        reaction_handlers self = <[M1 := f]> registry ->
        M1 <> message_id (reaction_message reaction) ->
        registry !! message_id (reaction_message reaction) = None ->
        on_reaction_change self action reaction user = ([], Returned)).
Proof.
  unfold on_reaction_change. split_and!.
  - by intros f ->.
  - by intros ->.
  - intros M1 f registry -> Hne Hnone. by rewrite lookup_insert_ne, Hnone.
Qed.

End Router.

(** ** The worked examples *)

Import Demo.

(** The example of the specification: [^debug ] is registered before [^d],
    and [debug reset] goes to the first handler only. *)
Lemma first_match_example :
  on_message bot (table_of [("^debug ", "debug"); ("^d", "d")])
    (message_from alice 1 "$debug reset")
  = ([LogInfo "Received command: debug reset";
      CallCommand "debug" (message_from alice 1 "$debug reset") 6%nat],
     Returned).
Proof. reflexivity. Qed.

(** C2. With two functions registered under the same pattern, the router
    calls the second and never the first: the table is a dict keyed by the
    pattern, and the second registration overwrites the first. *)
Theorem duplicate_pattern_calls_later_handler :
  table_of [("^d", "first"); ("^d", "second")]
  = table_of [("^d", "second")]
  /\ on_message bot (table_of [("^d", "first"); ("^d", "second")])
       (message_from alice 1 "$debug reset")
     = ([LogInfo "Received command: debug reset";
         CallCommand "second" (message_from alice 1 "$debug reset") 1%nat],
        Returned).
Proof. split; reflexivity. Qed.

(** The overwritten pattern keeps its place: a handler registered last is
    called ahead of one registered before it. *)
Lemma duplicate_pattern_keeps_position :
  on_message bot
    (table_of [("^d", "first"); ("^debug ", "second"); ("^d", "third")])
    (message_from alice 1 "$debug reset")
  = ([LogInfo "Received command: debug reset";
      CallCommand "third" (message_from alice 1 "$debug reset") 1%nat],
     Returned).
Proof. reflexivity. Qed.

(** C3, as stated, fails: a handler that raises [SystemExit], which is no
    cancellation, is not caught, and nothing is sent. *)
Lemma system_exit_not_reported :
  let message := message_from alice 1 "$quit" in
  let e := {| exc_class := OtherBaseException; format_exc := "SystemExit" |} in
  call_command "shutdown" bot message 1%nat = Raised e
  /\ exc_class e <> CancelledError
  /\ on_message bot (table_of [("^q", "shutdown")]) message
     = ([LogInfo "Received command: quit"; CallCommand "shutdown" message 1%nat],
        Raised e).
Proof. simpl. split_and!; [reflexivity|discriminate|reflexivity]. Qed.

(** ** The theorems at the worked examples *)

Lemma handler_exception_reported_witness :
  String.length long_traceback = 2020%nat
  /\ exists diagnostic,
       on_message bot
         ([(pat "^help", "help")] ++ (pat "^boom", "crash") :: [(pat "^b", "other")])
         (message_from alice 1 "$Boom now")
       = ([LogInfo "Received command: Boom now";
           CallCommand "crash" (message_from alice 1 "$Boom now") 4%nat;
           ChannelSend 100
             ("Sorry <@7>! Something went wrong while running your command.```"
              +:+ diagnostic +:+ "```")],
          Raised {| exc_class := ExceptionSubclass; format_exc := long_traceback |})
       /\ String.length diagnostic = 1900%nat.
Proof.
  split; [vm_compute; reflexivity|].
  destruct (handler_exception_reported (hs := handlers) bot [(pat "^help", "help")] (pat "^boom")
              "crash" [(pat "^b", "other")] (message_from alice 1 "$Boom now")
              "Boom now" 4%nat
              {| exc_class := ExceptionSubclass; format_exc := long_traceback |})
    as (diagnostic & dropped & Htrace & Hsent & _ & _ & Hlength & _);
    [reflexivity|reflexivity|repeat constructor|reflexivity|reflexivity
    |reflexivity|].
  exists diagnostic. split; [|exact Hlength].
  apply injective_projections; [exact Htrace|apply Hsent; reflexivity].
Defined.

(** C3 also fails when the send does: on a platform that refuses the
    message, the router raises the platform's exception, and the handler's
    exception is not raised again. *)
Lemma failed_send_replaces_exception :
  on_message (hs := handlers) (tr := Samples.refusing_transport) bot [(pat "^boom", "crash")]
    (message_from alice 1 "$boom")
  = ([LogInfo "Received command: boom";
      CallCommand "crash" (message_from alice 1 "$boom") 4%nat;
      ChannelSend 100
        (error_text (message_from alice 1 "$boom") Samples.crash_exception)],
     Raised Samples.forbidden)
  /\ call_command (Handlers := handlers) "crash" bot
       (message_from alice 1 "$boom") 4%nat
     = Raised Samples.crash_exception
  /\ Samples.forbidden <> Samples.crash_exception.
Proof. split_and!; [reflexivity|reflexivity|discriminate]. Qed.

Lemma handler_cancellation_propagates_witness :
  on_message bot
    ([(pat "^help", "help")] ++ (pat DEBUG_COMMAND_PREFIX, "cancelled") :: [])
    (message_from alice 1 "$d reset")
  = ([LogInfo "Received command: d reset";
      CallCommand "cancelled" (message_from alice 1 "$d reset") 2%nat],
     Raised {| exc_class := CancelledError; format_exc := "CancelledError" |}).
Proof.
  apply (handler_cancellation_propagates (hs := handlers) bot [(pat "^help", "help")]
           (pat DEBUG_COMMAND_PREFIX) "cancelled" [] (message_from alice 1 "$d reset")
           "d reset" 2%nat);
    [reflexivity|reflexivity|repeat constructor|reflexivity|reflexivity|reflexivity].
Defined.

Lemma unmatched_command_ignored_witness :
  on_message bot (table_of [("^debug ", "debug"); ("^help$", "help")])
    (message_from alice 1 "$good morning")
  = ([LogInfo "Received command: good morning"], Returned).
Proof.
  apply (unmatched_command_ignored (hs := handlers) bot
           (table_of [("^debug ", "debug"); ("^help$", "help")])
           (message_from alice 1 "$good morning") "good morning");
    [reflexivity|reflexivity|repeat constructor].
Defined.

Lemma own_message_ignored_witness :
  mentioned_in moobot own_message = true
  /\ String.prefix "$" (content own_message) = true
  /\ on_message bot (table_of [("^d", "d")]) own_message = ([], Returned).
Proof.
  split_and!; [reflexivity|reflexivity|].
  apply (own_message_ignored (hs := handlers) bot (table_of [("^d", "d")]) own_message moobot);
    reflexivity.
Defined.

Lemma reaction_routed_by_message_id_witness :
  on_reaction_change (bot_with {[ 1 := "claim" ]}) ADDED (reaction_on 1) alice
  = ([CallReaction "claim" ADDED (reaction_on 1) alice], Returned)
  /\ on_reaction_change (bot_with {[ 1 := "claim" ]}) ADDED (reaction_on 2) alice
     = ([], Returned)
  /\ on_reaction_change (bot_with (<[1 := "claim"]> ∅)) REMOVED (reaction_on 2) alice
     = ([], Returned).
Proof.
  split_and!.
  - apply (proj1 (reaction_routed_by_message_id (hs := handlers)
                    (bot_with {[ 1 := "claim" ]}) ADDED (reaction_on 1) alice)).
    reflexivity.
  - apply (proj1 (proj2 (reaction_routed_by_message_id (hs := handlers)
                    (bot_with {[ 1 := "claim" ]}) ADDED (reaction_on 2) alice))).
    reflexivity.
  - apply (proj2 (proj2 (reaction_routed_by_message_id (hs := handlers)
                    (bot_with (<[1 := "claim"]> ∅)) REMOVED (reaction_on 2) alice))
             1 "claim" ∅); [reflexivity|simpl; lia|reflexivity].
Defined.

End BotFacts.

(* ===================================================================== *)
(** * More on the migration: counts, failures, shape                      *)
(* ===================================================================== *)

Module MigrationMore.
Import Py Migration Schema Tally MigrationFacts.

Lemma field_getitem obj key v : getitem obj key = Ok v -> field obj key = Some v.
Proof. intros (fields & -> & Hf)%getitem_ok. done. Qed.

Lemma switch_spec_has_source spec r :
  switch_spec spec = Ok r -> has_source spec = bool_decide (is_Some r).
Proof.
  destruct r as [spec'|]; intros Hs.
  - apply switch_spec_some_object in Hs as (fields & -> & Hsrc & _).
    unfold has_source; simpl. rewrite !bool_decide_eq_true_2; eauto.
  - by rewrite (switch_spec_none_no_source _ Hs).
Qed.

Lemma update_searches_count searches searches' n :
  update_searches searches = Ok (searches', n) ->
  n = length (List.filter is_prior_search searches).
Proof.
  revert searches' n. induction searches as [|search rest IH]; intros searches' n.
  { by intros [= <- <-]. }
  simpl. unfold_bind.
  destruct (getitem search "spec") as [spec|] eqn:Hget; [|discriminate].
  destruct (switch_spec spec) as [changed|] eqn:Hsw; [|discriminate].
  destruct (update_searches rest) as [[rest' m]|] eqn:Hrest; [|discriminate].
  unfold is_prior_search at 1.
  rewrite (field_getitem _ _ _ Hget), (switch_spec_has_source _ _ Hsw).
  specialize (IH _ _ eq_refl).
  destruct changed; intros [= <- <-]; simpl; by rewrite <- IH.
Qed.

Lemma update_notifier_count row row' n :
  update_notifier row = Ok (row', n) -> n = prior_searches row.
Proof.
  unfold update_notifier, prior_searches; unfold_bind.
  destruct row as [[| |doc]]; simpl; [discriminate..|].
  destruct (getitem doc "active_searches") as [active|] eqn:Hget; [|discriminate].
  apply getitem_ok in Hget as (top & -> & Htop).
  destruct (iter active) as [searches|] eqn:Hiter; [|discriminate].
  destruct (update_searches searches) as [[searches' m]|] eqn:Hup; [|discriminate].
  intros Hn. assert (n = m) as -> by (by destruct (negb _); injection Hn).
  unfold active_searches; simpl. rewrite Htop.
  destruct (iter_searches _ _ _ _ Hiter Hup) as [->|[-> Hother]].
  - by apply update_searches_count in Hup.
  - destruct active; try done. by destruct (Hother items).
Qed.

Lemma update_notifier_rows_count rows rows' n :
  update_notifier_rows rows = Ok (rows', n) ->
  n = sum_list (prior_searches <$> rows).
Proof.
  revert rows' n. induction rows as [|row rest IH]; intros rows' n; simpl.
  { by intros [= <- <-]. }
  unfold_bind.
  destruct (update_notifier row) as [[row' k]|] eqn:Hrow; [|discriminate].
  destruct (update_notifier_rows rest) as [[rest' m]|] eqn:Hrest; [|discriminate].
  intros [= <- <-].
  by rewrite (update_notifier_count _ _ _ Hrow), (IH _ _ eq_refl).
Qed.

Lemma update_listing_rows_count rows rows' n :
  update_listing_rows rows = Ok (rows', n) -> n = prior_listings rows.
Proof.
  unfold prior_listings.
  revert rows' n. induction rows as [|row rest IH]; intros rows' n; simpl.
  { by intros [= <- <-]. }
  unfold_bind. unfold update_listing at 1; unfold_bind.
  unfold is_prior_listing at 1.
  destruct row as [[| |spec]]; simpl; [discriminate..|].
  destruct (switch_spec spec) as [changed|] eqn:Hsw; [|discriminate].
  rewrite (switch_spec_has_source _ _ Hsw).
  destruct (update_listing_rows rest) as [[rest' m]|] eqn:Hrest;
    [|by destruct changed].
  specialize (IH _ _ eq_refl).
  destruct changed; intros [= <- <-]; simpl; by rewrite <- IH.
Qed.

(** X1. The two counts that a completed run prints are the number of active
    searches, over all notifiers, whose spec had a [source] key, and the
    number of listings whose spec had one. *)
Theorem main_counts_prior_specs db db' n m :
  main db = (db', Ok (n, m)) ->
  n = sum_list (prior_searches <$> notifiers db)
  /\ m = prior_listings (listings db).
Proof.
  unfold main, update_notifiers, update_listings.
  destruct (update_notifier_rows (notifiers db)) as [[rows k]|] eqn:Hn; [|done].
  simpl.
  destruct (update_listing_rows (listings db)) as [[lrows j]|] eqn:Hl; [|done].
  intros [= <- <- <-].
  split; [by apply update_notifier_rows_count in Hn
         |by apply update_listing_rows_count in Hl].
Qed.

Lemma main_counts_prior_specs_witness :
  1%nat = sum_list (prior_searches <$> notifiers Demo.database)
  /\ 1%nat = prior_listings (listings Demo.database).
Proof.
  apply (main_counts_prior_specs Demo.database (main Demo.database).1 1%nat 1%nat).
  reflexivity.
Defined.

(** ** A run with nothing to convert *)

Lemma update_notifier_rows_zero rows rows' :
  update_notifier_rows rows = Ok (rows', 0%nat) -> rows' = rows.
Proof.
  revert rows'. induction rows as [|row rest IH]; intros rows'; simpl.
  { by intros [= <-]. }
  unfold_bind.
  destruct (update_notifier row) as [[row' k]|] eqn:Hrow; [|discriminate].
  destruct (update_notifier_rows rest) as [[rest' m]|] eqn:Hrest; [|discriminate].
  intros [= <- Hsum]. assert (k = 0%nat /\ m = 0%nat) as [-> ->] by lia.
  destruct (update_notifier_ok _ _ _ Hrow) as (_ & _ & Hsame).
  by rewrite (Hsame eq_refl), (IH _ eq_refl).
Qed.

Lemma update_listing_rows_zero rows rows' :
  update_listing_rows rows = Ok (rows', 0%nat) -> rows' = rows.
Proof.
  revert rows'. induction rows as [|row rest IH]; intros rows'; simpl.
  { by intros [= <-]. }
  unfold_bind.
  destruct (update_listing row) as [[row' k]|] eqn:Hrow; [|discriminate].
  destruct (update_listing_rows rest) as [[rest' m]|] eqn:Hrest; [|discriminate].
  intros [= <- Hsum]. assert (k = 0%nat /\ m = 0%nat) as [-> ->] by lia.
  rewrite (IH _ eq_refl). f_equal.
  revert Hrow. unfold update_listing; unfold_bind.
  destruct (loads _); [|discriminate]. simpl.
  destruct (switch_spec _) as [[?|]|]; by intros [= <-].
Qed.

(** X2. When no active search and no listing has a spec with a [source] key, a
    completed run reports 0 and 0 and leaves the database as it was. *)
Theorem main_nothing_to_convert db db' n m :
  main db = (db', Ok (n, m)) ->
  sum_list (prior_searches <$> notifiers db) = 0%nat ->
  prior_listings (listings db) = 0%nat ->
  db' = db /\ n = 0%nat /\ m = 0%nat.
Proof.
  unfold main, update_notifiers, update_listings.
  destruct (update_notifier_rows (notifiers db)) as [[rows k]|] eqn:Hrows; [|done].
  simpl.
  destruct (update_listing_rows (listings db)) as [[lrows j]|] eqn:Hl; [|done].
  intros [= <- <- <-] Hn Hm.
  rewrite <- (update_notifier_rows_count _ _ _ Hrows) in Hn.
  rewrite <- (update_listing_rows_count _ _ _ Hl) in Hm. subst k j.
  rewrite (update_notifier_rows_zero _ _ Hrows), (update_listing_rows_zero _ _ Hl).
  by destruct db.
Qed.

Lemma main_nothing_to_convert_witness :
  (main (main Demo.database).1).1 = (main Demo.database).1
  /\ 0%nat = 0%nat /\ 0%nat = 0%nat.
Proof.
  apply (main_nothing_to_convert (main Demo.database).1
           (main (main Demo.database).1).1 0%nat 0%nat); reflexivity.
Defined.

(** ** Rows the migration cannot read *)

Lemma update_notifier_rows_raise before row after e :
  is_ok (update_notifier_rows before) = true ->
  update_notifier row = Raise e ->
  update_notifier_rows (before ++ row :: after) = Raise e.
Proof.
  intros Hbefore Hrow. induction before as [|r rest IH]; simpl in *; unfold_bind.
  - by rewrite Hrow.
  - destruct (update_notifier r) as [[r' k]|]; [|discriminate].
    destruct (update_notifier_rows rest) as [[rest' m]|]; [|discriminate].
    by rewrite IH.
Qed.

Lemma update_listing_rows_raise before row after e :
  is_ok (update_listing_rows before) = true ->
  update_listing row = Raise e ->
  update_listing_rows (before ++ row :: after) = Raise e.
Proof.
  intros Hbefore Hrow. induction before as [|r rest IH]; simpl in *; unfold_bind.
  - by rewrite Hrow.
  - destruct (update_listing r) as [[r' k]|]; [|discriminate].
    destruct (update_listing_rows rest) as [[rest' m]|]; [|discriminate].
    by rewrite IH.
Qed.

Lemma update_searches_raise before search after e :
  is_ok (update_searches before) = true ->
  (spec ← getitem search "spec"; switch_spec spec) = Raise e ->
  update_searches (before ++ search :: after) = Raise e.
Proof.
  intros Hbefore Hs. induction before as [|s rest IH]; simpl in *; unfold_bind.
  - destruct (getitem search "spec") as [spec|]; simpl in *;
      [by rewrite Hs|by injection Hs as ->].
  - destruct (getitem s "spec") as [spec|]; [|discriminate].
    destruct (switch_spec spec); [|discriminate].
    destruct (update_searches rest) as [[rest' m]|]; [|discriminate].
    by rewrite IH.
Qed.

(** X3. A notifier whose config has no [active_searches] key stops the run with
    [KeyError('active_searches')]: nothing is committed, whatever the rows
    before it would have had converted. *)
Theorem missing_active_searches_aborts db before row after top :
  notifiers db = before ++ row :: after ->
  is_ok (update_notifier_rows before) = true ->
  config_json row = Json (JObj top) ->
  top !! "active_searches" = None ->
  main db = (db, Raise (KeyError "active_searches")).
Proof.
  intros Hrows Hbefore Hconfig Htop.
  unfold main, update_notifiers. rewrite Hrows.
  rewrite (update_notifier_rows_raise _ _ _ (KeyError "active_searches")); [done..|].
  unfold update_notifier; unfold_bind. rewrite Hconfig. simpl. by rewrite Htop.
Qed.

(** X4. An active search without a [spec] key stops the run with
    [KeyError('spec')], and nothing is committed. *)
Theorem search_without_spec_aborts
    db before row after top sbefore search safter fields :
  notifiers db = before ++ row :: after ->
  is_ok (update_notifier_rows before) = true ->
  config_json row = Json (JObj top) ->
  top !! "active_searches" = Some (JArr (sbefore ++ search :: safter)) ->
  is_ok (update_searches sbefore) = true ->
  search = JObj fields ->
  fields !! "spec" = None ->
  main db = (db, Raise (KeyError "spec")).
Proof.
  intros Hrows Hbefore Hconfig Htop Hsbefore -> Hspec.
  unfold main, update_notifiers. rewrite Hrows.
  rewrite (update_notifier_rows_raise _ _ _ (KeyError "spec")); [done..|].
  unfold update_notifier; unfold_bind. rewrite Hconfig. simpl. rewrite Htop. simpl.
  rewrite (update_searches_raise _ _ _ (KeyError "spec")); [done..|].
  simpl. unfold_bind. by rewrite Hspec.
Qed.

(** X5. The two passes commit separately: when a listing cannot be migrated,
    the run stops with that exception and the listings stay as they were,
    but the notifiers stay converted, and the notifier pass of a later run
    finds nothing left to do. *)
Theorem listing_failure_keeps_notifier_pass db rows n before row after e :
  update_notifier_rows (notifiers db) = Ok (rows, n) ->
  listings db = before ++ row :: after ->
  is_ok (update_listing_rows before) = true ->
  update_listing row = Raise e ->
  let db1 := {| notifiers := rows; listings := listings db |} in
  main db = (db1, Raise e)
  /\ Forall2 notifier_converted (notifiers db) (notifiers db1)
  /\ update_notifiers db1 = (db1, Ok 0%nat).
Proof.
  intros Hrows Hlist Hbefore Hrow db1.
  destruct (update_notifier_rows_ok _ _ _ Hrows) as (Hconv & Hagain).
  split_and!.
  - unfold main, update_notifiers, update_listings. rewrite Hrows. simpl.
    rewrite Hlist, (update_listing_rows_raise _ _ _ e); [|done..].
    by rewrite <- Hlist.
  - done.
  - unfold update_notifiers. simpl. by rewrite Hagain.
Qed.


Lemma missing_active_searches_aborts_witness :
  main Broken.missing_active_searches
  = (Broken.missing_active_searches, Raise (KeyError "active_searches")).
Proof.
  apply (missing_active_searches_aborts Broken.missing_active_searches
           [Broken.good_notifier] {| config_json := Json (JObj Broken.no_searches) |}
           [] Broken.no_searches); reflexivity.
Defined.

Lemma search_without_spec_aborts_witness :
  main Broken.search_without_spec
  = (Broken.search_without_spec, Raise (KeyError "spec")).
Proof.
  apply (search_without_spec_aborts Broken.search_without_spec []
           {| config_json := Json (JObj Broken.searches_without_spec) |} []
           Broken.searches_without_spec
           [JObj {[ "spec" := Demo.prior_spec ]}] (JObj Broken.no_spec) []
           Broken.no_spec); reflexivity.
Defined.

Lemma listing_failure_keeps_notifier_pass_witness :
  (exists rows,
     main Broken.null_listing
     = ({| notifiers := rows; listings := listings Broken.null_listing |},
        Raise TypeError)
     /\ rows <> notifiers Broken.null_listing)
  /\ (main Broken.malformed_listing).2 = Raise JSONDecodeError.
Proof.
  split.
  - exists (main Broken.null_listing).1.(notifiers). split.
    + apply (listing_failure_keeps_notifier_pass Broken.null_listing
               (main Broken.null_listing).1.(notifiers) 1%nat
               [{| search_spec_json := Json Demo.prior_spec |}]
               {| search_spec_json := Null |} [] TypeError); reflexivity.
    + vm_compute. discriminate.
  - destruct (listing_failure_keeps_notifier_pass Broken.malformed_listing
                (main Broken.malformed_listing).1.(notifiers) 1%nat
                [{| search_spec_json := Json Demo.prior_spec |}]
                {| search_spec_json := Malformed |} [] JSONDecodeError)
      as (Hmain & _ & _); [reflexivity..|].
    by rewrite Hmain.
Defined.

End MigrationMore.

(* ===================================================================== *)
(** * More on the bot: command extraction, outcomes, the table, start     *)
(* ===================================================================== *)

Module BotMore.
Import Bot BotFacts.

(** An event that is none of the events of a trace given in full. *)
Ltac no_such_event :=
  let Hin := fresh "Hin" in
  intros Hin;
  repeat (apply elem_of_cons in Hin as [Hin|Hin]; [discriminate|]);
  by apply elem_of_nil in Hin.

(** ** Text *)

Lemma append_cons c a b : String c a +:+ b = String c (a +:+ b).
Proof. reflexivity. Qed.

Lemma append_nil b : EmptyString +:+ b = b.
Proof. reflexivity. Qed.

Lemma length_append a b :
  String.length (a +:+ b) = (String.length a + String.length b)%nat.
Proof.
  induction a as [|c a IH]; [done|]. rewrite append_cons. simpl. by rewrite IH.
Qed.

Lemma prefix_append p rest : String.prefix p (p +:+ rest) = true.
Proof.
  induction p as [|c p IH]; [by destruct rest|].
  rewrite append_cons. simpl. destruct (ascii_dec c c); [done|congruence].
Qed.

Lemma prefix_cons a p b s :
  String.prefix (String a p) (String b s)
  = if ascii_dec a b then String.prefix p s else false.
Proof. reflexivity. Qed.

Lemma str_drop_append p rest : str_drop (String.length p) (p +:+ rest) = rest.
Proof. induction p as [|c p IH]; [done|]. by rewrite append_cons. Qed.

Lemma lstrip_head s :
  lstrip s = EmptyString
  \/ exists c rest, lstrip s = String c rest /\ is_space c = false.
Proof.
  induction s as [|c s IH]; [by left|]. simpl.
  destruct (is_space c) eqn:Hc; [done|]. right. eauto.
Qed.

Lemma rstrip_idempotent s : rstrip (rstrip s) = rstrip s.
Proof.
  induction s as [|c s IH]; [done|]. simpl.
  destruct (rstrip s) as [|c' s'] eqn:Hs.
  - destruct (is_space c) eqn:Hc; [done|]. simpl. by rewrite Hc.
  - simpl in *. rewrite IH. done.
Qed.

Lemma rstrip_keeps_head c rest :
  is_space c = false -> exists rest', rstrip (String c rest) = String c rest'.
Proof.
  intros Hc. simpl. destruct (rstrip rest); [rewrite Hc|]; eauto.
Qed.

Lemma strip_first s c : first_char (strip s) = Some c -> is_space c = false.
Proof.
  unfold strip.
  destruct (lstrip_head s) as [->|(c' & rest & -> & Hc)]; [done|].
  destruct (rstrip_keeps_head c' rest Hc) as [rest' ->]. by intros [= <-].
Qed.

Lemma rstrip_last s c : last_char (rstrip s) = Some c -> is_space c = false.
Proof.
  induction s as [|c' s IH]; [done|]. simpl.
  destruct (rstrip s) as [|c'' s'] eqn:Hs.
  - destruct (is_space c') eqn:Hc'; [done|]. by intros [= <-].
  - exact IH.
Qed.

Lemma strip_last s c : last_char (strip s) = Some c -> is_space c = false.
Proof. apply rstrip_last. Qed.

Lemma strip_idempotent s : strip (strip s) = strip s.
Proof.
  unfold strip.
  destruct (lstrip_head s) as [->|(c & rest & -> & Hc)]; [done|].
  destruct (rstrip_keeps_head c rest Hc) as [rest' Hr].
  rewrite Hr. simpl lstrip. rewrite Hc. rewrite <- Hr. apply rstrip_idempotent.
Qed.


Lemma append_assoc a b c : (a +:+ b) +:+ c = a +:+ (b +:+ c).
Proof. induction a as [|x a IH]; [done|]. rewrite !append_cons. by rewrite IH. Qed.

(** [str(n)] starts with a digit or with the minus sign. *)
Lemma str_of_int_head n :
  exists c rest, str_of_int n = String c rest /\ c <> "!"%char.
Proof.
  unfold str_of_int. destruct (Z.to_int n) as [d|d]; destruct d; simpl;
    eexists _, _; (split; [reflexivity|discriminate]).
Qed.

Lemma remove_first_mention_unfold id s :
  remove_first_mention id s =
    if String.prefix ("<@!" +:+ str_of_int id +:+ ">") s
    then str_drop (String.length ("<@!" +:+ str_of_int id +:+ ">")) s
    else if String.prefix ("<@" +:+ str_of_int id +:+ ">") s
    then str_drop (String.length ("<@" +:+ str_of_int id +:+ ">")) s
    else
      match s with
      | String c rest => String c (remove_first_mention id rest)
      | EmptyString => EmptyString
      end.
Proof. by destruct s. Qed.

Lemma remove_leading_nick_mention id rest :
  remove_first_mention id ("<@!" +:+ str_of_int id +:+ ">" +:+ rest) = rest.
Proof.
  rewrite remove_first_mention_unfold.
  replace ("<@!" +:+ str_of_int id +:+ ">" +:+ rest)
    with (("<@!" +:+ str_of_int id +:+ ">") +:+ rest)
    by (by rewrite !append_assoc).
  by rewrite prefix_append, str_drop_append.
Qed.

Lemma remove_leading_mention id rest :
  remove_first_mention id ("<@" +:+ str_of_int id +:+ ">" +:+ rest) = rest.
Proof.
  rewrite remove_first_mention_unfold.
  destruct (str_of_int_head id) as (c & t & Hid & Hc).
  assert (String.prefix ("<@!" +:+ str_of_int id +:+ ">")
            ("<@" +:+ str_of_int id +:+ ">" +:+ rest) = false) as ->.
  { rewrite Hid, !append_cons, !append_nil, !prefix_cons.
    destruct (ascii_dec "<" "<"); [|done].
    destruct (ascii_dec "@" "@"); [|done].
    by destruct (ascii_dec "!" c). }
  replace ("<@" +:+ str_of_int id +:+ ">" +:+ rest)
    with (("<@" +:+ str_of_int id +:+ ">") +:+ rest)
    by (by rewrite !append_assoc).
  by rewrite prefix_append, str_drop_append.
Qed.

(** Without an occurrence of either form of the mention, nothing is
    removed. *)
Lemma remove_first_mention_absent id s :
  Py.str_contains ("<@!" +:+ str_of_int id +:+ ">") s = false ->
  Py.str_contains ("<@" +:+ str_of_int id +:+ ">") s = false ->
  remove_first_mention id s = s.
Proof.
  induction s as [|c s IH]; intros Hnick Hplain; [reflexivity|].
  rewrite remove_first_mention_unfold.
  change (Py.str_contains ?n (String c s))
    with (String.prefix n (String c s) || Py.str_contains n s) in Hnick, Hplain.
  apply orb_false_iff in Hnick as [-> Hn], Hplain as [-> Hp].
  by rewrite IH.
Qed.


Section Commands.
Context {lib : ReLibrary} {hs : Handlers} {tr : Transport}.

Implicit Types (d : Table) (self : DiscordBot ReactionHandler).

(** ** Which messages are commands *)

(** X6. A message that neither mentions the bot nor starts with the command
    prefix has no effect at all: nothing is logged, called or sent. *)
Theorem ordinary_message_ignored self d message :
  (forall u, client_user self = Some u -> mentioned_in u message = false) ->
  (forall prefix, command_prefix self = Some prefix ->
     String.prefix prefix (content message) = false) ->
  get_command_from_message self message = None
  /\ on_message self d message = ([], Returned).
Proof.
  intros Hmention Hprefix.
  assert (get_command_from_message self message = None) as Hnone.
  { unfold get_command_from_message, command_by_mention, command_by_prefix.
    destruct (client_user self) as [u|]; [rewrite (Hmention u eq_refl)|];
      (destruct (command_prefix self) as [prefix|];
         [by rewrite (Hprefix prefix eq_refl)|done]). }
  split; [done|]. unfold on_message. rewrite Hnone.
  by destruct (is_client_user _ _).
Qed.

(** X7. The command handed to the router never starts and never ends with
    a whitespace character. *)
Theorem command_is_stripped self message command :
  get_command_from_message self message = Some command ->
  (forall c, first_char command = Some c -> is_space c = false)
  /\ (forall c, last_char command = Some c -> is_space c = false).
Proof.
  assert (forall s, get_command_from_message self message = Some (strip s) ->
            get_command_from_message self message = Some command ->
            (forall c, first_char command = Some c -> is_space c = false)
            /\ (forall c, last_char command = Some c -> is_space c = false))
    as Hstrip.
  { intros s -> [= <-]. split; intros c; [apply strip_first|apply strip_last]. }
  intros Hcommand. revert Hstrip Hcommand.
  unfold get_command_from_message, command_by_mention, command_by_prefix.
  destruct (client_user self) as [u|]; [destruct (mentioned_in u message)|];
    try (intros Hstrip Hc; by apply (Hstrip _ eq_refl));
    (destruct (command_prefix self) as [prefix|]; [|done];
     destruct (String.prefix prefix (content message)); [|done];
     intros Hstrip Hc; by apply (Hstrip _ eq_refl)).
Qed.

(** X8. A message that starts with the bot's mention, in either form, and is
    seen as mentioning the bot, gives the rest of its text as the command. *)
Theorem leading_mention_command self message u rest :
  client_user self = Some u ->
  mentioned_in u message = true ->
  content message = "<@" +:+ str_of_int (user_id u) +:+ ">" +:+ rest
  \/ content message = "<@!" +:+ str_of_int (user_id u) +:+ ">" +:+ rest ->
  get_command_from_message self message = Some (strip rest).
Proof.
  intros Hu Hm Hcontent.
  unfold get_command_from_message, command_by_mention. rewrite Hu, Hm.
  destruct Hcontent as [-> | ->];
    [by rewrite remove_leading_mention|by rewrite remove_leading_nick_mention].
Qed.

(** X9. The mention is tried first. A message that counts as mentioning the bot
    without containing the bot's mention, as one that mentions everyone
    does, is a command with its whole text: a command prefix at its start
    stays in the command. *)
Theorem mention_without_text_keeps_prefix self message u :
  client_user self = Some u ->
  mentioned_in u message = true ->
  Py.str_contains ("<@!" +:+ str_of_int (user_id u) +:+ ">") (content message) = false ->
  Py.str_contains ("<@" +:+ str_of_int (user_id u) +:+ ">") (content message) = false ->
  get_command_from_message self message = Some (strip (content message)).
Proof.
  intros Hu Hm Hnick Hplain.
  unfold get_command_from_message, command_by_mention. rewrite Hu, Hm.
  by rewrite remove_first_mention_absent.
Qed.

(** X10. A message that does not mention the bot and starts with the command
    prefix gives the text behind the prefix as the command; the prefix
    alone gives the empty command. *)
Theorem prefix_command self message prefix rest :
  (forall u, client_user self = Some u -> mentioned_in u message = false) ->
  command_prefix self = Some prefix ->
  content message = prefix +:+ rest ->
  get_command_from_message self message = Some (strip rest)
  /\ (rest = EmptyString ->
      get_command_from_message self message = Some EmptyString).
Proof.
  intros Hmention Hprefix Hcontent.
  assert (get_command_from_message self message = Some (strip rest)) as Hc.
  { unfold get_command_from_message, command_by_mention, command_by_prefix.
    rewrite Hprefix, Hcontent, prefix_append, str_drop_append.
    destruct (client_user self) as [u|]; [|done].
    rewrite <- Hcontent. by rewrite (Hmention u eq_refl). }
  split; [done|]. intros ->. by rewrite Hc.
Qed.


(** ** What a message can lead to *)

Lemma dispatch_cases self d message command :
  (none_matches d command
   /\ dispatch self d message command = ([], Returned))
  \/ exists p f m,
       (p, f) ∈ d
       /\ match_code (code p) command = Some m
       /\ dispatch self d message command = run_handler self message f m.
Proof.
  induction d as [|[q g] rest IH]; simpl.
  { left. split; [constructor|done]. }
  destruct (match_code (code q) command) as [m|] eqn:Hq.
  - right. exists q, g, m. split_and!; [by left|done|done].
  - destruct IH as [[Hnone Hrun]|(p & f & m & Hin & Hm & Hrun)].
    + left. split; [by constructor|done].
    + right. exists p, f, m. split_and!; [by right|done|done].
Qed.


(** The traces of [on_message], without the conditions under which each
    arises. *)
Lemma on_message_trace self d message :
  (on_message self d message).1 = []
  \/ exists command,
       (on_message self d message).1
       = [LogInfo ("Received command: " +:+ command)]
       \/ exists f m,
            (on_message self d message).1
            = [LogInfo ("Received command: " +:+ command); CallCommand f message m]
            \/ exists e,
                 (on_message self d message).1
                 = [LogInfo ("Received command: " +:+ command);
                    CallCommand f message m;
                    ChannelSend (channel message) (error_text message e)].
Proof.
  unfold on_message.
  destruct (is_client_user _ _); [by left|].
  destruct (get_command_from_message self message) as [command|]; [|by left].
  right. exists command.
  destruct (dispatch_cases self d message command)
    as [[_ ->]|(p & f & m & _ & _ & ->)]; [by left|].
  right. exists f, m. unfold run_handler.
  destruct (call_command f self message m) as [|e]; [by left|].
  destruct (exc_class e); [by left|right; by exists e|by left].
Qed.

(** ** The error message *)

Lemma error_text_length message e :
  (String.length (error_text message e)
   <= String.length (user_mention (author message)) + 1962)%nat.
Proof.
  unfold error_text. rewrite !length_append, last_chars_length.
  change (String.length "Sorry ") with 6%nat.
  change (String.length "! Something went wrong while running your command.```")
    with 53%nat.
  change (String.length "```") with 3%nat.
  lia.
Qed.

(** X12. Every message the router sends goes to the channel of the command and
    is at most 1962 characters longer than the author's mention, however
    long the traceback is. *)
Theorem sent_message_bounded self d message target text :
  ChannelSend target text ∈ (on_message self d message).1 ->
  target = channel message
  /\ (String.length text
      <= String.length (user_mention (author message)) + 1962)%nat.
Proof.
  destruct (on_message_trace self d message)
    as [->|(command & [->|(f & m & [->|(e & ->)])])].
  - by intros ?%elem_of_nil.
  - by intros [?|?%elem_of_nil]%elem_of_cons.
  - by intros [?|[?|?%elem_of_nil]%elem_of_cons]%elem_of_cons.
  - intros [?|[?|[[= -> ->]|?%elem_of_nil]%elem_of_cons]%elem_of_cons]%elem_of_cons;
      try done.
    split; [done|apply error_text_length].
Qed.

(** X13. When the matched handler raises an instance of [Exception] whose
    formatted traceback has at most 1900 characters, the message handed to
    the channel carries the whole traceback; the router then raises the
    handler's exception if the send returned, and the send's if it failed. *)
Theorem short_traceback_sent_whole self before p f after message command m e :
  is_client_user (client_user self) (author message) = false ->
  get_command_from_message self message = Some command ->
  none_matches before command ->
  match_code (code p) command = Some m ->
  call_command f self message m = Raised e ->
  exc_class e = ExceptionSubclass ->
  (String.length (format_exc e) <= 1900)%nat ->
  let text :=
    "Sorry " +:+ user_mention (author message)
    +:+ "! Something went wrong while running your command.```"
    +:+ format_exc e +:+ "```" in
  on_message self (before ++ (p, f) :: after) message
  = ([LogInfo ("Received command: " +:+ command);
      CallCommand f message m;
      ChannelSend (channel message) text],
     match channel_send (channel message) text with
     | Returned => Raised e
     | Raised send_error => Raised send_error
     end).
Proof.
  intros Hother Hcommand Hnone Hm Hraise Hclass Hshort text.
  rewrite (on_message_first_match _ _ _ _ _ _ command m); [|done..].
  unfold run_handler, report_and_raise, error_text. rewrite Hraise, Hclass.
  by rewrite last_chars_short.
Qed.

(** ** The command table as a dict *)

Lemma pattern_eqb_eq (p q : Pattern) :
  pattern_eqb p q = true <-> pattern p = pattern q.
Proof. apply String.eqb_eq. Qed.

Lemma pattern_eqb_neq (p q : Pattern) :
  pattern_eqb p q = false <-> pattern p <> pattern q.
Proof. apply String.eqb_neq. Qed.


Lemma dict_set_NoDup d p f :
  NoDup (keys d) -> NoDup (keys (dict_set d p f)).
Proof.
  intros Hd. destruct (decide (pattern p ∈ keys d)) as [Hin|Hnot].
  - by rewrite dict_set_keys.
  - rewrite dict_set_fresh, keys_app; [|done].
    apply NoDup_app. split_and!; [done| |apply NoDup_singleton].
    intros r Hr ->%list_elem_of_singleton. done.
Qed.

Lemma dict_get_entry d p f :
  NoDup (keys d) -> (p, f) ∈ d -> dict_get d p = Some f.
Proof.
  induction d as [|[q g] rest IH]; simpl.
  { by intros _ ?%elem_of_nil. }
  intros [Hq Hrest]%NoDup_cons [[= -> ->]|Hin]%elem_of_cons.
  - by rewrite (proj2 (pattern_eqb_eq q q)).
  - rewrite (proj2 (pattern_eqb_neq q p)); [by apply IH|].
    intros Heq. apply Hq. rewrite Heq.
    apply (list_elem_of_fmap_2 (fun entry => pattern entry.1) _ (p, f) Hin).
Qed.

(** X15. Registering under a pattern text never moves a pattern that is already
    in the table: a new text goes to the end, a text that is there keeps
    its place. *)
Theorem command_keeps_order r f d d' :
  command r f d = Py.Ok d' ->
  keys d' = if decide (r ∈ keys d) then keys d else keys d ++ [r].
Proof.
  unfold command, re_compile, mbind, result_bind.
  destruct (compile_code r) as [c|]; simpl; [|discriminate].
  intros [= <-]. case_decide.
  - by rewrite dict_set_keys.
  - by rewrite dict_set_fresh, keys_app.
Qed.


(** X17. A table filled by decorators holds every pattern text once, and the
    handler read under a pattern met while iterating, [d[pattern]], is the
    one stored with that pattern. *)
Theorem registered_table_is_a_dict rs d0 d :
  NoDup (keys d0) ->
  register_all rs d0 = Py.Ok d ->
  NoDup (keys d)
  /\ (forall p f, (p, f) ∈ d -> dict_get d p = Some f).
Proof.
  intros Hd0 Hrun. assert (NoDup (keys d)) as Hd.
  { revert d0 Hd0 Hrun. induction rs as [|[r f] rest IH]; intros d0 Hd0; simpl.
    - by intros [= <-].
    - unfold mbind, result_bind, Py.bind.
      destruct (command r f d0) as [d1|] eqn:Hcommand; [|discriminate].
      apply IH. revert Hcommand. unfold command, re_compile, mbind, result_bind.
      destruct (compile_code r) as [c|]; simpl; [|discriminate].
      intros [= <-]. by apply dict_set_NoDup. }
  split; [done|]. intros p f. by apply dict_get_entry.
Qed.

End Commands.

(** ** The events [start] subscribes to *)

Section Events.
Context {lib : ReLibrary} {hs : Handlers} {tr : Transport}.

Lemma on_message_calls_no_reaction_handler
    (self : DiscordBot ReactionHandler) d message f action reaction user :
  CallReaction f action reaction user ∉ (on_message self d message).1.
Proof.
  destruct (on_message_trace self d message)
    as [->|(command & [->|(g & m & [->|(e & ->)])])]; no_such_event.
Qed.

(** X18. Messages and added reactions reach the bot, but the removal of a
    reaction never does: the coroutine that passes [REMOVED] is named
    [on_reaction_removed], and the event is dispatched to the attribute
    [on_reaction_remove], which the client does not have. No event leads to
    a call of a reaction handler with [REMOVED]. *)
Theorem reaction_removal_is_not_delivered
    (self : DiscordBot ReactionHandler) (d : Table) :
  (forall message,
     Startup.dispatch_event self d (Startup.message_event message)
     = on_message self d message)
  /\ (forall reaction user,
        Startup.dispatch_event self d (Startup.reaction_add_event reaction user)
        = on_reaction_change self ADDED reaction user)
  /\ (forall reaction user,
        Startup.dispatch_event self d (Startup.reaction_remove_event reaction user)
        = ([], Returned))
  /\ (forall ev f reaction user,
        CallReaction f REMOVED reaction user
        ∉ (Startup.dispatch_event self d ev).1).
Proof.
  split_and!; try done.
  intros [message|r u|r u] f reaction user.
  - apply on_message_calls_no_reaction_handler.
  - change (CallReaction f REMOVED reaction user
            ∉ (on_reaction_change self ADDED r u).1).
    unfold on_reaction_change.
    destruct (reaction_handlers self !! _); simpl; no_such_event.
  - change (CallReaction f REMOVED reaction user ∉ []). apply not_elem_of_nil.
Qed.

End Events.


(** ** The theorems at the worked examples *)

Import Demo Samples.

Lemma ordinary_message_ignored_witness :
  on_message bot (table_of [("^good", "greet")]) (message_from alice 4 "good morning")
  = ([], Returned).
Proof.
  apply (ordinary_message_ignored (hs := handlers) bot
           (table_of [("^good", "greet")]) (message_from alice 4 "good morning")).
  - by intros u [= <-].
  - by intros prefix [= <-].
Defined.

Lemma command_is_stripped_witness :
  content mention_message = "<@!42>  debug reset "
  /\ get_command_from_message bot mention_message = Some "debug reset"
  /\ is_space "d" = false
  /\ is_space "t" = false.
Proof.
  split_and!; [reflexivity|reflexivity| |].
  - apply (proj1 (command_is_stripped (hs := handlers) bot mention_message
                    "debug reset" eq_refl)). reflexivity.
  - apply (proj2 (command_is_stripped (hs := handlers) bot mention_message
                    "debug reset" eq_refl)). reflexivity.
Defined.

Lemma leading_mention_command_witness :
  get_command_from_message bot mention_message = Some (strip "  debug reset ").
Proof.
  apply (leading_mention_command (hs := handlers) bot mention_message moobot
           "  debug reset "); [reflexivity|reflexivity|by right].
Defined.

Lemma mention_without_text_keeps_prefix_witness :
  get_command_from_message bot everyone_message = Some "$help @everyone".
Proof.
  apply (mention_without_text_keeps_prefix (hs := handlers) bot everyone_message
           moobot); reflexivity.
Defined.

Lemma prefix_command_witness :
  get_command_from_message bot (message_from alice 1 "$debug reset")
  = Some (strip "debug reset")
  /\ get_command_from_message bot (message_from alice 1 "$") = Some "".
Proof.
  split.
  - apply (prefix_command (hs := handlers) bot
             (message_from alice 1 "$debug reset") "$" "debug reset");
      [by intros u [= <-]|reflexivity|reflexivity].
  - apply (prefix_command (hs := handlers) bot (message_from alice 1 "$") "$" "");
      [by intros u [= <-]|reflexivity|reflexivity|reflexivity].
Defined.

Lemma sent_message_bounded_witness :
  String.length long_traceback = 2020%nat
  /\ (String.length (error_text (message_from alice 1 "$boom") crash_exception)
      <= 4 + 1962)%nat.
Proof.
  split; [vm_compute; reflexivity|].
  apply (sent_message_bounded (hs := handlers) bot (table_of [("^boom", "crash")])
           (message_from alice 1 "$boom") 100
           (error_text (message_from alice 1 "$boom") crash_exception)).
  assert ((on_message (hs := handlers) bot (table_of [("^boom", "crash")])
             (message_from alice 1 "$boom")).1
          = [LogInfo "Received command: boom";
             CallCommand "crash" (message_from alice 1 "$boom") 4%nat;
             ChannelSend 100
               (error_text (message_from alice 1 "$boom") crash_exception)])
    as -> by reflexivity.
  do 2 apply list_elem_of_further. apply list_elem_of_here.
Defined.

Lemma short_traceback_sent_whole_witness :
  on_message (hs := short_handlers) bot [(pat "^boom", "oops")]
    (message_from alice 1 "$boom")
  = ([LogInfo "Received command: boom";
      CallCommand (hs := short_handlers) "oops" (message_from alice 1 "$boom") 4%nat;
      ChannelSend 100
        "Sorry <@7>! Something went wrong while running your command.```KeyError: 'spec'```"],
     Raised short_exception)
  /\ on_message (hs := short_handlers) (tr := refusing_transport) bot
       [(pat "^boom", "oops")] (message_from alice 1 "$boom")
     = ([LogInfo "Received command: boom";
         CallCommand (hs := short_handlers) "oops" (message_from alice 1 "$boom") 4%nat;
         ChannelSend 100
           "Sorry <@7>! Something went wrong while running your command.```KeyError: 'spec'```"],
        Raised forbidden).
Proof.
  assert (String.length (format_exc short_exception) <= 1900)%nat as Hshort
    by (vm_compute; lia).
  split.
  - exact (short_traceback_sent_whole (hs := short_handlers) bot [] (pat "^boom")
             "oops" [] (message_from alice 1 "$boom") "boom" 4%nat short_exception
             eq_refl eq_refl (List.Forall_nil _) eq_refl eq_refl eq_refl Hshort).
  - exact (short_traceback_sent_whole (hs := short_handlers)
             (tr := refusing_transport) bot [] (pat "^boom")
             "oops" [] (message_from alice 1 "$boom") "boom" 4%nat short_exception
             eq_refl eq_refl (List.Forall_nil _) eq_refl eq_refl eq_refl Hshort).
Defined.

Lemma first_registered_handler_wins_witness :
  exists d,
    register_all [("^help", "help"); ("^debug ", "debug"); ("^d", "d")] []
    = Py.Ok d
    /\ on_message bot d (message_from alice 1 "$debug reset")
       = ([LogInfo "Received command: debug reset";
           CallCommand "debug" (message_from alice 1 "$debug reset") 6%nat],
          Returned).
Proof.
  apply (first_registered_handler_wins (hs := handlers) bot [("^help", "help")]
           "^debug " "debug" [("^d", "d")] (message_from alice 1 "$debug reset")
           "debug reset" (code (pat "^debug ")) 6%nat).
  - apply (bool_decide_unpack _). reflexivity.
  - repeat (constructor; [by eexists|]). constructor.
  - reflexivity.
  - reflexivity.
  - intros r' c' [->|[]%elem_of_nil]%elem_of_cons [= <-]. reflexivity.
  - reflexivity.
  - reflexivity.
Defined.

Lemma command_keeps_order_witness :
  keys (table_of [("^d", "first"); ("^debug ", "second"); ("^d", "third")])
  = ["^d"; "^debug "].
Proof.
  apply (command_keeps_order (hs := handlers) "^d" "third"
           (table_of [("^d", "first"); ("^debug ", "second")])).
  reflexivity.
Defined.


Lemma registered_table_is_a_dict_witness :
  NoDup (keys (table_of [("^d", "first"); ("^debug ", "second"); ("^d", "third")])).
Proof.
  apply (registered_table_is_a_dict (hs := handlers)
           [("^d", "first"); ("^debug ", "second"); ("^d", "third")] []
           (table_of [("^d", "first"); ("^debug ", "second"); ("^d", "third")]));
    [constructor|reflexivity].
Defined.

End BotMore.
